(** * SignalScope: the propagation model, the grid builder, the field
      evaluator and the statistics of [5G.py]

    The Python program computes on IEEE doubles through NumPy.  This
    development reads every float as a real number ([R]): the rounding of
    a value is not represented.  Where the source leaves the reals in a way
    that changes a result, the departure is kept visible:
    - [np.log10] outside its domain (the source would get [-inf] or [nan]) is
      an explicit failure of the [option] monad, so that "no invalid value is
      produced" is a statement about the model and not a consequence of its
      types;
    - a field handed to the statistics may hold [nan] cells ([cell]), since
      the reporting code tests for them with [np.isnan];
    - the number of samples that [np.arange] takes, and whether an array can
      be created at all, are read from a description of NumPy ([numpy]) and
      not computed over the reals;
    - [np.vectorize] fixes the type of its output from its first result, so
      the power is a Python number with its type ([pynum]). *)

From Stdlib Require Import String.
From Stdlib Require Import Reals Lra Lia List Bool Arith ZArith.
From Stdlib Require Import Permutation Sorted.
Import ListNotations.

Open Scope R_scope.

(** ** Numeric layer *)

Module Numeric.

(** The mathematical decimal logarithm. *)
Definition log10 (x : R) : R := ln x / ln 10.

(** [np.log10] on a scalar: a real result on positive arguments, a non-finite
    one otherwise ([-inf] at 0, [nan] below), represented by [None].  A
    computation in the [option] monad stops at the first such call; what
    Python would do with the non-finite value afterwards is not modelled,
    and [signal_strength_model_total] shows that the model never gets
    there. *)
Definition np_log10 (x : R) : option R :=
  if Rlt_dec 0 x then Some (log10 x) else None.

(** Python's [max(a, b)]: the first argument is kept unless the second one is
    strictly greater. *)
Definition py_max (a b : R) : R := if Rlt_dec a b then b else a.

Definition bind {A B : Type} (m : option A) (k : A -> option B) : option B :=
  match m with
  | Some a => k a
  | None => None
  end.

End Numeric.

Import Numeric.

Notation "x <- m ;; k" := (bind m (fun x => k))
  (at level 61, m at next level, right associativity).

(** ** Propagation model: [signal_strength_model] *)

Module Propagation.

Open Scope string_scope.

(** Lines 44-65 of the source: the [if]/[elif] chain on [environment_type]
    and the clamp [max(0, additional_loss)].  A string that matches none of
    the four branches leaves [additional_loss] at its initial [0]. *)
Definition additional_loss (environment_type : string)
    (distance frequency_mhz distance_km : R) : option R :=
  raw <-
    (if String.eqb environment_type "urban_dense" then
       l1 <- np_log10 (distance + 1) ;;
       let clutter_factor := 20 + 0.1 * (frequency_mhz / 1000) * l1 in
       l2 <- np_log10 (distance_km + 0.001) ;;
       let path_loss_exponent_factor := 18 * l2 in
       Some (clutter_factor + path_loss_exponent_factor)
     else if String.eqb environment_type "urban_macro" then
       l1 <- np_log10 (distance + 1) ;;
       let clutter_factor := 15 + 0.05 * (frequency_mhz / 1000) * l1 in
       l2 <- np_log10 (distance_km + 0.001) ;;
       let path_loss_exponent_factor := 12 * l2 in
       Some (clutter_factor + path_loss_exponent_factor)
     else if String.eqb environment_type "suburban" then
       let clutter_factor := 10 in
       l2 <- np_log10 (distance_km + 0.001) ;;
       let path_loss_exponent_factor := 8 * l2 in
       Some (clutter_factor + path_loss_exponent_factor)
     else if String.eqb environment_type "rural_macro" then
       let clutter_factor := 3 in
       l2 <- np_log10 (distance_km + 0.001) ;;
       let path_loss_exponent_factor := 5 * l2 in
       Some (clutter_factor + path_loss_exponent_factor)
     else Some 0) ;;
  Some (py_max 0 raw).

(** The value bound to [distance_km] on lines 39-40. *)
Definition km_of (distance : R) : R :=
  let distance_km := distance / 1000 in
  if Req_dec_T distance_km 0 then 0.000001 else distance_km.

Definition signal_strength_model
    (distance transmit_power_dbm frequency_mhz antenna_gain_dbi : R)
    (environment_type : string) : option R :=
  if Rle_dec distance 0 then Some (transmit_power_dbm - 200)
  else if Rle_dec frequency_mhz 0 then Some (transmit_power_dbm - 300)
  else
    let distance_km := km_of distance in
    ld <- np_log10 distance ;;
    lf <- np_log10 frequency_mhz ;;
    let fspl_m := 20 * ld + 20 * lf - 27.55 in
    loss <- additional_loss environment_type distance frequency_mhz distance_km ;;
    let path_loss := fspl_m + loss in
    let eirp_dbm := transmit_power_dbm + antenna_gain_dbi in
    let received_power_dbm := eirp_dbm - path_loss in
    Some received_power_dbm.

(** Free-space path loss as the specification writes it. *)
Definition FSPL (distance_m frequency_mhz : R) : R :=
  20 * log10 distance_m + 20 * log10 frequency_mhz - 27.55.

(** The urban_dense result in the specification's words: the exponent term
    takes [max(distance_km, 0.001)] under the logarithm. *)
Definition spec_urban_dense
    (distance_m tx_power_dbm frequency_mhz antenna_gain_dbi : R) : R :=
  let clutter := 20 + 0.1 * (frequency_mhz / 1000) * log10 (distance_m + 1) in
  let exponent_term := 18 * log10 (Rmax (distance_m / 1000) 0.001) in
  let additional := Rmax 0 (clutter + exponent_term) in
  (tx_power_dbm + antenna_gain_dbi) - (FSPL distance_m frequency_mhz + additional).

End Propagation.

(** ** Grid builder: [create_grid] *)

Module Grid.

(** The exceptions of the core: the [ValueError] that [create_grid] raises
    itself and that NumPy raises on sizes it refuses, and the [MemoryError]
    of a failed allocation. *)
Inductive error : Type := ValueError | MemoryError.

(** A NumPy array of two dimensions, as the list of its rows. *)
Definition array2 (A : Type) : Type := list (list A).

Definition shape {A : Type} (a : array2 A) : nat * nat :=
  (length a, length (hd [] a)).

Definition size {A : Type} (a : array2 A) : nat := length (concat a).

(** Every row has [m] entries: the arrays NumPy builds are rectangular. *)
Definition rectangular {A : Type} (n m : nat) (a : array2 A) : Prop :=
  length a = n /\ Forall (fun row => length row = m) a.

(** What NumPy does on the machine of the run and that real arithmetic does
    not decide:
    - [arange_length start stop step] is the number
      [ceil((stop - start) / step)] as [np.arange] evaluates it in double
      precision.  It can differ from the real quotient rounded up: with
      [start = 1], [stop = 1.3 + 0.1], [step = 0.1] NumPy counts 5 samples,
      the reals 4.  An overflow of the quotient is read as a number above
      [NPY_MAX_INTP];
    - [allocate n] is what the creation of an array of [n] doubles does:
      [None] when the array is created, the exception raised otherwise. *)
Record numpy : Type := {
  arange_length : R -> R -> R -> Z;
  allocate : nat -> option error
}.

(** The largest array length of a 64-bit NumPy, [2 ^ 63 - 1]. *)
Definition NPY_MAX_INTP : Z := 9223372036854775807.

(** The one fact about [arange_length] that the development relies on: an
    interval [lo < hi] sampled up to [hi + step] with a positive step has at
    least one sample (the quotient computed is positive or, when it
    underflows to 0, NumPy takes one sample). *)
Definition arange_sound (np : numpy) : Prop :=
  forall lo hi step : R,
    0 < step -> lo < hi -> (1 <= arange_length np lo (hi + step) step)%Z.

(** NumPy with real arithmetic and memory without bound. *)
Definition ideal : numpy :=
  {| arange_length := fun start stop step => Zceil ((stop - start) / step);
     allocate := fun _ => None |}.

(** [np.arange(start, stop, step)] with a positive step: a length above
    [NPY_MAX_INTP] is refused with [ValueError] ("Maximum allowed size
    exceeded"); otherwise the array is allocated and holds the samples
    [start + i * step], none when the length is not positive. *)
Definition np_arange (np : numpy) (start stop step : R) : error + list R :=
  let length := arange_length np start stop step in
  if (NPY_MAX_INTP <? length)%Z then inl ValueError
  else
    match allocate np (Z.to_nat length) with
    | Some e => inl e
    | None =>
        inr (map (fun i => start + INR i * step) (seq 0 (Z.to_nat length)))
    end.

(** The two arrays of [np.meshgrid(x, y)] with the default ['xy'] indexing:
    both have one row per element of [y] and one column per element of
    [x]. *)
Definition mesh_of (x y : list R) : array2 R * array2 R :=
  (map (fun _ => x) y, map (fun yj => map (fun _ => yj) x) y).

(** [np.meshgrid(x, y)]: the arrays are created, or the creation fails. *)
Definition np_meshgrid (np : numpy) (x y : list R)
  : error + (array2 R * array2 R) :=
  match allocate np (length y * length x) with
  | Some e => inl e
  | None => inr (mesh_of x y)
  end.

(** Lines 72-80.  Both calls of [np.arange] are made before an axis is
    replaced by its lower bound. *)
Definition create_grid (np : numpy) (x_min x_max y_min y_max step : R)
  : error + (array2 R * array2 R) :=
  if Rle_dec step 0 then inl ValueError
  else
    match np_arange np x_min (x_max + step) step with
    | inl e => inl e
    | inr x =>
        match np_arange np y_min (y_max + step) step with
        | inl e => inl e
        | inr y =>
            let x := if Rge_dec x_min x_max then [x_min] else x in
            let y := if Rge_dec y_min y_max then [y_min] else y in
            np_meshgrid np x y
        end
    end.

End Grid.

(** ** Field evaluator: [simulate_signal_strength] *)

Module Evaluator.

Import Propagation Grid.

(** A cell of a signal field: a real power, or [None] for a value that is
    not one ([nan]). *)
Definition cell : Type := option R.

Definition field : Type := array2 cell.

(** A Python number: the type decides the output type of [np.vectorize]. *)
Inductive pynum : Type :=
| PyInt (z : Z)
| PyFloat (r : R).

Definition num_val (x : pynum) : R :=
  match x with
  | PyInt z => IZR z
  | PyFloat r => r
  end.

(** The conversion of a float to an integer: towards zero. *)
Definition trunc (v : R) : Z := if Rle_dec 0 v then Zfloor v else Zceil v.

(** Whether [signal_strength_model] returns a Python [int]: on its two
    guarded returns (lines 34 and 37), when the power is an [int].  Past
    the guards the result is a NumPy float. *)
Definition returns_int (transmit_power_dbm : pynum)
    (distance frequency_mhz : R) : bool :=
  match transmit_power_dbm with
  | PyInt _ =>
      if Rle_dec distance 0 then true
      else if Rle_dec frequency_mhz 0 then true else false
  | PyFloat _ => false
  end.

(** The conversion of a result to the output type of [np.vectorize]: an
    [int64] array holds the results truncated. *)
Definition to_otype (int64 : bool) (c : cell) : cell :=
  if int64 then option_map (fun v => IZR (trunc v)) c else c.

(** [np.sqrt((x - bs_x) ** 2 + (y - bs_y) ** 2)] on one pair of
    coordinates. *)
Definition euclid (bs_x bs_y x y : R) : R :=
  sqrt ((x - bs_x) ^ 2 + (y - bs_y) ^ 2).

Fixpoint zip_with {A B C : Type} (f : A -> B -> C) (l : list A) (l' : list B)
  : list C :=
  match l, l' with
  | a :: t, b :: t' => f a b :: zip_with f t t'
  | _, _ => []
  end.

Definition at2 (a : array2 R) (i j : nat) : R := nth j (nth i a []) 0.

Definition is_1x1 {A : Type} (a : array2 A) : bool :=
  let '(n, m) := shape a in (n =? 1)%nat && (m =? 1)%nat.

(** The two arrays of a grid come from [np.meshgrid] and have one shape; the
    element-wise operation is modelled on such pairs (NumPy's broadcasting of
    unequal shapes is not represented).  [np.vectorize] without [otypes]
    refuses an input of size 0 with a [ValueError]; otherwise it calls the
    function on the first element, [distances.flat[0]], takes the type of
    that result as the type of the output array, and converts every result
    to it. *)
Definition simulate_signal_strength (grid : array2 R * array2 R)
    (base_station_params : R * R) (transmit_power_dbm : pynum)
    (frequency_mhz antenna_gain_dbi : R)
    (environment_type : string) : error + field :=
  let '(xx, yy) := grid in
  let '(bs_x, bs_y) := base_station_params in
  let distances :=
    if is_1x1 xx && is_1x1 yy
    then [[euclid bs_x bs_y (at2 xx 0 0) (at2 yy 0 0)]]
    else zip_with (zip_with (euclid bs_x bs_y)) xx yy in
  if (size distances =? 0)%nat then inl ValueError
  else
    let int64 :=
      returns_int transmit_power_dbm (hd 0 (concat distances))
        frequency_mhz in
    inr (map (map (fun distance =>
                     to_otype int64
                       (signal_strength_model distance
                          (num_val transmit_power_dbm) frequency_mhz
                          antenna_gain_dbi environment_type)))
             distances).

(** The stages of [run_simulation] that belong to the core (lines 633-642):
    the parameter checks, the grid and the evaluation.  The evaluation is a
    parameter, so that a statement can say that a run never reaches it.
    The power read from its spin box is a float. *)
Inductive outcome : Type :=
| StepAbort
| FrequencyAbort
| RangeAbort
| GridAbort
| Failed (e : error)
| Done (strengths : field).

Definition run_simulation_with (np : numpy)
    (evaluate : array2 R * array2 R -> R * R -> pynum -> R -> R -> string ->
                error + field)
    (bs_params : R * R) (tx_power frequency antenna_gain : R)
    (env_type_key : string) (x_min x_max y_min y_max step : R) : outcome :=
  if Rle_dec step 0 then StepAbort
  else if Rle_dec frequency 0 then FrequencyAbort
  else if Rgt_dec x_min x_max then RangeAbort
  else if Rgt_dec y_min y_max then RangeAbort
  else
    match create_grid np x_min x_max y_min y_max step with
    | inl e => Failed e
    | inr (grid_xx, grid_yy) =>
        if (size grid_xx =? 0)%nat then GridAbort
        else
          match evaluate (grid_xx, grid_yy) bs_params (PyFloat tx_power)
                         frequency antenna_gain env_type_key with
          | inl e => Failed e
          | inr signal_strengths => Done signal_strengths
          end
    end.

End Evaluator.

(** ** Statistics: [_generate_analysis_report] and [_plot_cdf_results] *)

Module Statistics.

Import Grid Evaluator.

Definition Rgeb (x y : R) : bool := if Rge_dec x y then true else false.
Definition Rltb (x y : R) : bool := if Rlt_dec x y then true else false.

Definition isnan (c : cell) : bool :=
  match c with Some _ => false | None => true end.

(** [np.sum(mask)] for a mask built from comparisons: a comparison with
    [nan] is false, so a [nan] cell is counted nowhere. *)
Definition count_where (p : R -> bool) (data : list cell) : nat :=
  length (filter (fun c => match c with Some v => p v | None => false end)
                 data).

Definition excellent_rsrp : R := -80.
Definition good_rsrp : R := -95.
Definition fair_rsrp : R := -105.
Definition poor_rsrp : R := -115.

Record cat_counts : Type := {
  excellent : nat;
  good : nat;
  fair : nat;
  marginal : nat;
  poor : nat
}.

Definition count_tiers (data : list cell) : cat_counts :=
  {| excellent := count_where (fun v => Rgeb v excellent_rsrp) data;
     good := count_where (fun v => Rgeb v good_rsrp && Rltb v excellent_rsrp) data;
     fair := count_where (fun v => Rgeb v fair_rsrp && Rltb v good_rsrp) data;
     marginal := count_where (fun v => Rgeb v poor_rsrp && Rltb v fair_rsrp) data;
     poor := count_where (fun v => Rltb v poor_rsrp) data |}.

(** [(count / total_points) * 100 if total_points > 0 else 0]. *)
Definition percentage (count total_points : nat) : R :=
  if (0 <? total_points)%nat then INR count / INR total_points * 100 else 0.

(** The rows of the table of the report, in the order of [levels_info]:
    the count and the percentage of each tier. *)
Record report : Type := {
  counts : cat_counts;
  total_points : nat;
  rows : list (nat * R)
}.

(** [_generate_analysis_report]: nothing is computed ([None]: the initial
    text is shown again) for an empty or all-[nan] array; otherwise the
    counts per tier and their percentages of [strengths_data.size]. *)
Definition generate_analysis_report (strengths_data : field) : option report :=
  let data := concat strengths_data in
  if (size strengths_data =? 0)%nat || forallb isnan data then None
  else
    let cc := count_tiers data in
    let total := if (0 <? size strengths_data)%nat
                 then size strengths_data else 1%nat in
    Some {| counts := cc;
            total_points := total;
            rows := map (fun count => (count, percentage count total))
                        [excellent cc; good cc; fair cc; marginal cc; poor cc] |}.

(** The sum of the percentages of the five rows. *)
Definition sum_percentages (rep : report) : R :=
  fold_right Rplus 0 (map snd (rows rep)).

(** The number of valid points in the specification's words: the finite
    entries of the field, [1] when there are none. *)
Definition spec_total_valid_points (strengths_data : field) : nat :=
  let valid := length (filter (fun c => negb (isnan c)) (concat strengths_data)) in
  if (valid =? 0)%nat then 1%nat else valid.

(** [np.sort] on reals, as an insertion sort. *)
Fixpoint insert (v : R) (l : list R) : list R :=
  match l with
  | [] => [v]
  | h :: t => if Rle_dec v h then v :: l else h :: insert v t
  end.

Fixpoint np_sort (l : list R) : list R :=
  match l with
  | [] => []
  | h :: t => insert h (np_sort t)
  end.

(** [data_flat[~np.isnan(data_flat)]]. *)
Fixpoint drop_nan (data : list cell) : list R :=
  match data with
  | [] => []
  | Some v :: t => v :: drop_nan t
  | None :: t => drop_nan t
  end.

(** [_plot_cdf_results], up to the two sequences handed to the plot:
    [sorted_data] and [yvals]. *)
Definition cdf (strengths_data : field) : option (list R * list R) :=
  let data := concat strengths_data in
  if (size strengths_data =? 0)%nat || forallb isnan data then None
  else
    let data_flat := drop_nan data in
    if (length data_flat =? 0)%nat then None
    else
      let sorted_data := np_sort data_flat in
      let n := length sorted_data in
      let denom := if (1 <? n)%nat then (n - 1)%nat else 1%nat in
      let yvals := map (fun r => INR r / INR denom) (seq 0 n) in
      Some (sorted_data, yvals).

End Statistics.

(** ** The rest of the reporting code: extrema, plot ranges, CDF marks *)

Module Reporting.

Import Grid Evaluator Statistics.

Definition Rleb (x y : R) : bool := if Rle_dec x y then true else false.

(** [np.nanmin], [np.nanmax] and [np.nanmean] over the cells of an array:
    [nan] cells are left out, and with no other cell the result is [nan]. *)
Definition np_nanmin (data : list cell) : cell :=
  match drop_nan data with
  | [] => None
  | v :: t => Some (fold_left Rmin t v)
  end.

Definition np_nanmax (data : list cell) : cell :=
  match drop_nan data with
  | [] => None
  | v :: t => Some (fold_left Rmax t v)
  end.

Definition np_nanmean (data : list cell) : cell :=
  match drop_nan data with
  | [] => None
  | v :: t => Some (fold_right Rplus 0 (v :: t) / INR (length (v :: t)))
  end.

(** Lines 694-695 of [_generate_analysis_report]: [max_rsrp], [min_rsrp] and
    [avg_rsrp], computed past the guard on empty and all-[nan] arrays. *)
Definition report_extrema (strengths_data : field) : option (cell * cell * cell) :=
  let data := concat strengths_data in
  if (size strengths_data =? 0)%nat || forallb isnan data then None
  else Some (np_nanmax data, np_nanmin data, np_nanmean data).

(** Lines 646-650 of [run_simulation]: the area reported for a grid. *)
Definition total_area_sqm (grid_xx grid_yy : array2 R) (step : R) : R :=
  let '(num_y_points, num_x_points) := shape grid_xx in
  if (0 <? num_y_points)%nat && (0 <? num_x_points)%nat then
    if (1 <? num_x_points)%nat && (1 <? num_y_points)%nat then
      let total_width :=
        INR (num_x_points - 1) * (at2 grid_xx 0 1 - at2 grid_xx 0 0) in
      let total_height :=
        INR (num_y_points - 1) * (at2 grid_yy 1 0 - at2 grid_yy 0 0) in
      total_width * total_height
    else step * step
  else 0.


(** *** [_plot_simulation_results]: what is handed to the drawing calls *)

Definition fixed_vmin : R := -125.
Definition fixed_vmax : R := -65.

(** Lines 666-668: the range of the colour normalisation. *)
Definition norm_range (s_min_val s_max_val : cell) : R * R :=
  match s_min_val, s_max_val with
  | Some lo, Some hi =>
      if Req_dec_T lo hi then (lo - 1, hi + 1) else (fixed_vmin, fixed_vmax)
  | _, _ => (fixed_vmin, fixed_vmax)
  end.

(** Lines 672-676: [plot_extent], as [(left, right, bottom, top)]. *)
Definition plot_extent (x_min x_max y_min y_max step_val : R)
  : R * R * R * R :=
  let right :=
    if Req_dec_T x_min x_max
    then (if Rgt_dec step_val 0 then x_max + step_val else x_max + 1)
    else x_max in
  let top :=
    if Req_dec_T y_min y_max
    then (if Rgt_dec step_val 0 then y_max + step_val else y_max + 1)
    else y_max in
  let right := if Rge_dec x_min right then x_min + 1 else right in
  let top := if Rge_dec y_min top then y_min + 1 else top in
  (x_min, right, y_min, top).

Definition contour_levels : list R := [-115; -105; -95; -85; -75].

(** Lines 678-680: the levels asked of [ax.contour]; the empty list when no
    contour is drawn. *)
Definition valid_contour_levels (strengths : field)
    (s_min_val s_max_val : cell) (norm_actual : R * R) : list R :=
  let '(norm_vmin_actual, norm_vmax_actual) := norm_actual in
  match s_min_val, s_max_val with
  | Some lo, Some hi =>
      if (if Req_dec_T lo hi then false else true)
         && (1 <? fst (shape strengths))%nat
         && (1 <? snd (shape strengths))%nat
      then filter (fun lvl =>
                     Rltb norm_vmin_actual lvl && Rltb lvl norm_vmax_actual
                     && (Rltb lo lvl && Rltb lvl hi))
                  contour_levels
      else []
  | _, _ => []
  end.

Record coverage_plot : Type := {
  norm : R * R;
  extent : R * R * R * R;
  contours : list R
}.

(** [_plot_simulation_results] up to its drawing calls; [None] where the
    method returns after writing a "no data" text. *)
Definition plot_simulation_results (strengths : field)
    (x_min x_max y_min y_max step_val : R) : option coverage_plot :=
  let data := concat strengths in
  if (size strengths =? 0)%nat then None
  else
    let s_min_val := np_nanmin data in
    let s_max_val := np_nanmax data in
    let norm_actual := norm_range s_min_val s_max_val in
    if forallb isnan data then None
    else
      Some {| norm := norm_actual;
              extent := plot_extent x_min x_max y_min y_max step_val;
              contours := valid_contour_levels strengths s_min_val s_max_val
                            norm_actual |}.

(** *** [_plot_cdf_results]: the marks and the limits of the x axis *)

(** The values of the dictionary [rsrp_thresholds], in its order. *)
Definition rsrp_thresholds : list R := [-115; -105; -95; -80].

(** Lines 717-722: one mark [(threshold, prob)] per threshold strictly
    between the smallest and the largest value. *)
Definition cdf_marks (sorted_data : list R) : list (R * R) :=
  let data_min := hd 0 sorted_data in
  let data_max := last sorted_data 0 in
  map (fun threshold =>
         (threshold,
          INR (length (filter (fun v => Rleb v threshold) sorted_data))
          / INR (length sorted_data)))
      (filter (fun threshold =>
                 Rltb data_min threshold && Rltb threshold data_max)
              rsrp_thresholds).

(** Line 723: the limits given to [set_xlim]. *)
Definition cdf_xlim (sorted_data : list R) : R * R :=
  let data_min := hd 0 sorted_data in
  let data_max := last sorted_data 0 in
  let x_pad :=
    if Rgt_dec (data_max - data_min) 0
    then (data_max - data_min) * 0.05 else 1 in
  (data_min - x_pad, data_max + x_pad).

Record cdf_plot : Type := {
  xs : list R;
  ys : list R;
  marks : list (R * R);
  xlim : R * R
}.

Definition plot_cdf_results (strengths_data : field) : option cdf_plot :=
  match cdf strengths_data with
  | None => None
  | Some (sorted_data, yvals) =>
      Some {| xs := sorted_data;
              ys := yvals;
              marks := cdf_marks sorted_data;
              xlim := cdf_xlim sorted_data |}
  end.

End Reporting.

Import Propagation Grid Evaluator Statistics Reporting.

(** Decides the comparisons of reals a goal branches on, when [lra] can. *)
Ltac Rdecide :=
  repeat match goal with
         | |- context [Rge_dec ?a ?b] => destruct (Rge_dec a b); try lra
         | |- context [Rlt_dec ?a ?b] => destruct (Rlt_dec a b); try lra
         | |- context [Rle_dec ?a ?b] => destruct (Rle_dec a b); try lra
         end.

(** ** Facts about the numeric layer *)

Lemma ln10_pos : 0 < ln 10.
Proof. rewrite <- ln_1. apply ln_increasing; lra. Qed.

Lemma log10_1 : log10 1 = 0.
Proof. unfold log10. rewrite ln_1. lra. Qed.

Lemma log10_lt (x y : R) : 0 < x -> x < y -> log10 x < log10 y.
Proof.
  intros Hx Hxy. unfold log10.
  apply Rmult_lt_compat_r.
  - apply Rinv_0_lt_compat, ln10_pos.
  - now apply ln_increasing.
Qed.

Lemma log10_le (x y : R) : 0 < x -> x <= y -> log10 x <= log10 y.
Proof.
  intros Hx [Hlt | ->].
  - left. now apply log10_lt.
  - right. reflexivity.
Qed.

Lemma log10_10 : log10 10 = 1.
Proof. unfold log10. field. pose proof ln10_pos. lra. Qed.

Lemma log10_100 : log10 100 = 2.
Proof.
  unfold log10. replace 100 with (10 * 10) by lra.
  rewrite ln_mult by lra. field. pose proof ln10_pos. lra.
Qed.

Lemma log10_tenth : log10 (/ 10) = -1.
Proof.
  unfold log10. rewrite ln_Rinv by lra. field. pose proof ln10_pos. lra.
Qed.

Lemma log10_pos (x : R) : 1 < x -> 0 < log10 x.
Proof. intros H. rewrite <- log10_1. apply log10_lt; lra. Qed.

Lemma log10_neg (x : R) : 0 < x -> x < 1 -> log10 x < 0.
Proof. intros H0 H1. rewrite <- log10_1. now apply log10_lt. Qed.

Lemma np_log10_pos (x : R) : 0 < x -> np_log10 x = Some (log10 x).
Proof. intros H. unfold np_log10. destruct (Rlt_dec 0 x); [reflexivity | lra]. Qed.

Lemma py_max_Rmax (a b : R) : py_max a b = Rmax a b.
Proof.
  unfold py_max, Rmax.
  destruct (Rlt_dec a b), (Rle_dec a b); try reflexivity; lra.
Qed.

Lemma km_of_pos (d : R) : 0 < d -> km_of d = d / 1000.
Proof.
  intros H. unfold km_of.
  destruct (Req_dec_T (d / 1000) 0); [lra | reflexivity].
Qed.

Lemma Rmax_0_mono (a b : R) : a <= b -> Rmax 0 a <= Rmax 0 b.
Proof. intros H. apply Rle_max_compat_l, H. Qed.

(** ** The propagation model in its regular regime *)

Open Scope string_scope.

(** Every branch of the chain on [environment_type] computes
    [A + B * f_ghz * log10 (d + 1) + C * log10 (d_km + 0.001)] for constants
    of the branch, none of them negative, and clamps it at 0. *)
Lemma additional_loss_shape (environment_type : string) :
  exists A B C : R,
    0 <= B /\ 0 <= C /\
    forall d f : R, 0 < d ->
      additional_loss environment_type d f (km_of d) =
      Some (Rmax 0 (A + B * (f / 1000) * log10 (d + 1)
                    + C * log10 (d / 1000 + 0.001))).
Proof.
  unfold additional_loss.
  destruct (String.eqb environment_type "urban_dense");
    [| destruct (String.eqb environment_type "urban_macro");
       [| destruct (String.eqb environment_type "suburban");
          [| destruct (String.eqb environment_type "rural_macro")]]].
  - exists 20, 0.1, 18. split; [lra | split; [lra |]]. intros d f Hd.
    rewrite km_of_pos by assumption.
    rewrite !np_log10_pos by lra. cbn [bind].
    rewrite py_max_Rmax. reflexivity.
  - exists 15, 0.05, 12. split; [lra | split; [lra |]]. intros d f Hd.
    rewrite km_of_pos by assumption.
    rewrite !np_log10_pos by lra. cbn [bind].
    rewrite py_max_Rmax. reflexivity.
  - exists 10, 0, 8. split; [lra | split; [lra |]]. intros d f Hd.
    rewrite km_of_pos by assumption.
    rewrite !np_log10_pos by lra. cbn [bind].
    rewrite py_max_Rmax. f_equal. f_equal. lra.
  - exists 3, 0, 5. split; [lra | split; [lra |]]. intros d f Hd.
    rewrite km_of_pos by assumption.
    rewrite !np_log10_pos by lra. cbn [bind].
    rewrite py_max_Rmax. f_equal. f_equal. lra.
  - exists 0, 0, 0. split; [lra | split; [lra |]]. intros d f Hd.
    cbn [bind]. rewrite py_max_Rmax. f_equal. f_equal. lra.
Qed.

Lemma additional_loss_urban_dense (d f : R) :
  0 < d ->
  additional_loss "urban_dense" d f (km_of d) =
  Some (Rmax 0 (20 + 0.1 * (f / 1000) * log10 (d + 1)
                + 18 * log10 (d / 1000 + 0.001))).
Proof.
  intros Hd. unfold additional_loss. cbn [String.eqb Ascii.eqb Bool.eqb].
  rewrite km_of_pos by assumption.
  rewrite !np_log10_pos by lra. cbn [bind].
  rewrite py_max_Rmax. reflexivity.
Qed.

Lemma additional_loss_urban_macro (d f : R) :
  0 < d ->
  additional_loss "urban_macro" d f (km_of d) =
  Some (Rmax 0 (15 + 0.05 * (f / 1000) * log10 (d + 1)
                + 12 * log10 (d / 1000 + 0.001))).
Proof.
  intros Hd. unfold additional_loss. cbn [String.eqb Ascii.eqb Bool.eqb].
  rewrite km_of_pos by assumption.
  rewrite !np_log10_pos by lra. cbn [bind].
  rewrite py_max_Rmax. reflexivity.
Qed.

Lemma additional_loss_suburban (d f : R) :
  0 < d ->
  additional_loss "suburban" d f (km_of d) =
  Some (Rmax 0 (10 + 8 * log10 (d / 1000 + 0.001))).
Proof.
  intros Hd. unfold additional_loss. cbn [String.eqb Ascii.eqb Bool.eqb].
  rewrite km_of_pos by assumption.
  rewrite !np_log10_pos by lra. cbn [bind].
  rewrite py_max_Rmax. reflexivity.
Qed.

Lemma additional_loss_rural_macro (d f : R) :
  0 < d ->
  additional_loss "rural_macro" d f (km_of d) =
  Some (Rmax 0 (3 + 5 * log10 (d / 1000 + 0.001))).
Proof.
  intros Hd. unfold additional_loss. cbn [String.eqb Ascii.eqb Bool.eqb].
  rewrite km_of_pos by assumption.
  rewrite !np_log10_pos by lra. cbn [bind].
  rewrite py_max_Rmax. reflexivity.
Qed.

(** Past its two guards the model is EIRP minus free-space loss minus the
    clamped loss of the environment. *)
Lemma model_regular (d tx f g : R) (env : string) :
  0 < d -> 0 < f ->
  signal_strength_model d tx f g env =
  (loss <- additional_loss env d f (km_of d) ;;
   Some ((tx + g) - (FSPL d f + loss))).
Proof.
  intros Hd Hf. unfold signal_strength_model.
  destruct (Rle_dec d 0); [lra |].
  destruct (Rle_dec f 0); [lra |].
  rewrite !np_log10_pos by assumption. cbn [bind]. reflexivity.
Qed.

(** ** Claims about [signal_strength_model] *)

(** C4: for every distance at or below 0 the model returns exactly
    [transmit_power_dbm - 200], whatever the frequency, the gain and the
    environment are, and it returns a value (no logarithm is evaluated). *)
Theorem nonpositive_distance_sentinel
    (distance tx_power_dbm frequency_mhz antenna_gain_dbi : R)
    (environment_type : string) :
  distance <= 0 ->
  signal_strength_model distance tx_power_dbm frequency_mhz antenna_gain_dbi
    environment_type = Some (tx_power_dbm - 200).
Proof.
  intros Hd. unfold signal_strength_model.
  destruct (Rle_dec distance 0) as [_ | Hn]; [reflexivity | contradiction].
Qed.

Lemma nonpositive_distance_sentinel_witness :
  -5 <= 0 /\
  signal_strength_model (-5) 40 (-2600) 17 "no_such_environment" =
  Some (40 - 200).
Proof.
  split; [lra |].
  apply (nonpositive_distance_sentinel (-5) 40 (-2600) 17
           "no_such_environment").
  lra.
Defined.

(** C2, as the code has it: the frequency guard is the second one, so the
    value [transmit_power_dbm - 300] is returned for every frequency at or
    below 0 provided the distance is positive. *)
Theorem nonpositive_frequency_sentinel
    (distance tx_power_dbm frequency_mhz antenna_gain_dbi : R)
    (environment_type : string) :
  0 < distance ->
  frequency_mhz <= 0 ->
  signal_strength_model distance tx_power_dbm frequency_mhz antenna_gain_dbi
    environment_type = Some (tx_power_dbm - 300).
Proof.
  intros Hd Hf. unfold signal_strength_model.
  destruct (Rle_dec distance 0) as [Hle | _]; [lra |].
  destruct (Rle_dec frequency_mhz 0) as [_ | Hn]; [reflexivity | contradiction].
Qed.

Lemma nonpositive_frequency_sentinel_witness :
  0 < 100 /\ -1 <= 0 /\
  signal_strength_model 100 40 (-1) 17 "suburban" = Some (40 - 300).
Proof.
  split; [lra |]. split; [lra |].
  apply (nonpositive_frequency_sentinel 100 40 (-1) 17 "suburban"); lra.
Defined.

(** C2 as stated fails where the distance is not positive either: at
    distance 0 and frequency 0 the distance sentinel wins. *)
Lemma frequency_sentinel_lost_at_distance_0 :
  0 <= 0 /\
  signal_strength_model 0 40 0 17 "urban_dense" = Some (40 - 200) /\
  signal_strength_model 0 40 0 17 "urban_dense" <> Some (40 - 300).
Proof.
  split; [lra |].
  assert (H : signal_strength_model 0 40 0 17 "urban_dense" = Some (40 - 200)).
  { unfold signal_strength_model.
    destruct (Rle_dec 0 0) as [_ | Hn]; [reflexivity | lra]. }
  split; [exact H |].
  rewrite H. intros Heq. injection Heq as Heq. lra.
Qed.

(** C1, as the code has it: in urban_dense, for positive distance and
    frequency, the result is EIRP minus FSPL minus the clamped additional
    loss, whose exponent term is [18 * log10 (distance_m / 1000 + 0.001)]. *)
Theorem urban_dense_formula (distance_m tx_power_dbm frequency_mhz antenna_gain_dbi : R) :
  0 < distance_m ->
  0 < frequency_mhz ->
  signal_strength_model distance_m tx_power_dbm frequency_mhz antenna_gain_dbi
    "urban_dense" =
  Some ((tx_power_dbm + antenna_gain_dbi)
        - (FSPL distance_m frequency_mhz
           + Rmax 0 (20 + 0.1 * (frequency_mhz / 1000) * log10 (distance_m + 1)
                     + 18 * log10 (distance_m / 1000 + 0.001)))).
Proof.
  intros Hd Hf.
  rewrite model_regular by assumption.
  rewrite additional_loss_urban_dense by assumption.
  reflexivity.
Qed.

Lemma urban_dense_formula_witness :
  0 < 999 /\ 0 < 1000 /\
  signal_strength_model 999 40 1000 17 "urban_dense" =
  Some ((40 + 17)
        - (FSPL 999 1000
           + Rmax 0 (20 + 0.1 * (1000 / 1000) * log10 (999 + 1)
                     + 18 * log10 (999 / 1000 + 0.001)))).
Proof.
  split; [lra |]. split; [lra |].
  apply (urban_dense_formula 999 40 1000 17); lra.
Defined.

(** C1 as stated fails: at 999 m and 1000 MHz the code's exponent term is
    [18 * log10 1 = 0], the specification's is [18 * log10 0.999 < 0]. *)
Lemma urban_dense_spec_formula_fails :
  0 < 999 /\ 0 < 1000 /\
  signal_strength_model 999 40 1000 17 "urban_dense" <>
  Some (spec_urban_dense 999 40 1000 17).
Proof.
  split; [lra |]. split; [lra |].
  rewrite model_regular by lra.
  rewrite additional_loss_urban_dense by lra.
  cbn [bind]. intros Heq. injection Heq as Heq.
  unfold spec_urban_dense in Heq.
  replace (999 / 1000 + 0.001) with 1 in Heq by lra.
  rewrite log10_1 in Heq.
  assert (Hm : Rmax (999 / 1000) 0.001 = 999 / 1000).
  { apply Rmax_left. lra. }
  rewrite Hm in Heq.
  assert (HL : log10 (999 / 1000) < 0) by (apply log10_neg; lra).
  assert (HM : 0 < log10 (999 + 1)) by (apply log10_pos; lra).
  set (L := log10 (999 / 1000)) in *.
  set (M := log10 (999 + 1)) in *.
  set (F := FSPL 999 1000) in *.
  assert (H1 : Rmax 0 (20 + 0.1 * (1000 / 1000) * M + 18 * 0)
               = 20 + 0.1 * (1000 / 1000) * M + 18 * 0).
  { apply Rmax_right. lra. }
  rewrite H1 in Heq.
  assert (H2 : Rmax 0 (20 + 0.1 * (1000 / 1000) * M + 18 * L)
               < 20 + 0.1 * (1000 / 1000) * M).
  { apply Rmax_lub_lt; lra. }
  lra.
Qed.

(** C10: with positive distance and frequency, an environment string other
    than the four categories gets no additional loss: the result is the
    free-space one, EIRP minus FSPL, and it is a value. *)
Theorem unknown_environment_free_space
    (distance_m tx_power_dbm frequency_mhz antenna_gain_dbi : R)
    (environment_type : string) :
  0 < distance_m ->
  0 < frequency_mhz ->
  environment_type <> "urban_dense" ->
  environment_type <> "urban_macro" ->
  environment_type <> "suburban" ->
  environment_type <> "rural_macro" ->
  additional_loss environment_type distance_m frequency_mhz (km_of distance_m)
    = Some 0 /\
  signal_strength_model distance_m tx_power_dbm frequency_mhz antenna_gain_dbi
    environment_type =
  Some ((tx_power_dbm + antenna_gain_dbi) - FSPL distance_m frequency_mhz).
Proof.
  intros Hd Hf H1 H2 H3 H4.
  assert (Hloss : additional_loss environment_type distance_m frequency_mhz
                    (km_of distance_m) = Some 0).
  { unfold additional_loss.
    apply String.eqb_neq in H1, H2, H3, H4.
    rewrite H1, H2, H3, H4. cbn [bind].
    unfold py_max. destruct (Rlt_dec 0 0); [lra | reflexivity]. }
  split; [exact Hloss |].
  rewrite model_regular by assumption.
  rewrite Hloss. cbn [bind]. f_equal. lra.
Qed.

Lemma unknown_environment_free_space_witness :
  signal_strength_model 10 40 2600 17 "indoor" =
  Some ((40 + 17) - FSPL 10 2600).
Proof.
  apply (unknown_environment_free_space 10 40 2600 17 "indoor");
    try lra; discriminate.
Defined.

(** The clamped loss of any environment grows with the distance. *)
Lemma additional_loss_monotone (env : string) (f d1 d2 : R) :
  0 < f -> 0 < d1 -> d1 <= d2 ->
  exists a1 a2 : R,
    additional_loss env d1 f (km_of d1) = Some a1 /\
    additional_loss env d2 f (km_of d2) = Some a2 /\
    a1 <= a2.
Proof.
  intros Hf Hd1 Hle.
  destruct (additional_loss_shape env) as (A & B & C & HB & HC & Heq).
  eexists. eexists.
  split; [apply Heq; lra |].
  split; [apply Heq; lra |].
  apply Rmax_0_mono.
  assert (H1 : log10 (d1 + 1) <= log10 (d2 + 1)) by (apply log10_le; lra).
  assert (H2 : log10 (d1 / 1000 + 0.001) <= log10 (d2 / 1000 + 0.001))
    by (apply log10_le; lra).
  assert (H3 : B * (f / 1000) * log10 (d1 + 1)
               <= B * (f / 1000) * log10 (d2 + 1)).
  { apply Rmult_le_compat_l; [| exact H1].
    apply Rmult_le_pos; lra. }
  assert (H4 : C * log10 (d1 / 1000 + 0.001)
               <= C * log10 (d2 / 1000 + 0.001)).
  { apply Rmult_le_compat_l; assumption. }
  lra.
Qed.

(** C6: with power, gain, positive frequency and environment fixed, the
    model returns a value at every positive distance and the value does not
    increase with the distance. *)
Theorem power_non_increasing_in_distance
    (tx_power_dbm frequency_mhz antenna_gain_dbi : R)
    (environment_type : string) (d1 d2 : R) :
  0 < frequency_mhz ->
  0 < d1 ->
  d1 <= d2 ->
  exists p1 p2 : R,
    signal_strength_model d1 tx_power_dbm frequency_mhz antenna_gain_dbi
      environment_type = Some p1 /\
    signal_strength_model d2 tx_power_dbm frequency_mhz antenna_gain_dbi
      environment_type = Some p2 /\
    p2 <= p1.
Proof.
  intros Hf Hd1 Hle.
  destruct (additional_loss_monotone environment_type frequency_mhz d1 d2
              Hf Hd1 Hle) as (a1 & a2 & E1 & E2 & Ha).
  rewrite !model_regular by lra.
  rewrite E1, E2. cbn [bind].
  eexists. eexists.
  split; [reflexivity |]. split; [reflexivity |].
  assert (HF : log10 d1 <= log10 d2) by (apply log10_le; lra).
  unfold FSPL. lra.
Qed.

Lemma power_non_increasing_in_distance_witness :
  exists p1 p2 : R,
    signal_strength_model 10 40 2600 17 "urban_macro" = Some p1 /\
    signal_strength_model 250 40 2600 17 "urban_macro" = Some p2 /\
    p2 <= p1.
Proof.
  apply (power_non_increasing_in_distance 40 2600 17 "urban_macro" 10 250);
    lra.
Defined.

(** Once the rural loss is positive, the unclamped losses of the four
    categories are positive and ordered. *)
Lemma loss_order_from_rural (d f : R) :
  0 < d -> 0 < f ->
  0 < Rmax 0 (3 + 5 * log10 (d / 1000 + 0.001)) ->
  Rmax 0 (3 + 5 * log10 (d / 1000 + 0.001))
    <= Rmax 0 (10 + 8 * log10 (d / 1000 + 0.001)) /\
  Rmax 0 (10 + 8 * log10 (d / 1000 + 0.001))
    <= Rmax 0 (15 + 0.05 * (f / 1000) * log10 (d + 1)
               + 12 * log10 (d / 1000 + 0.001)) /\
  Rmax 0 (15 + 0.05 * (f / 1000) * log10 (d + 1)
          + 12 * log10 (d / 1000 + 0.001))
    <= Rmax 0 (20 + 0.1 * (f / 1000) * log10 (d + 1)
               + 18 * log10 (d / 1000 + 0.001)).
Proof.
  intros Hd Hf Hr.
  assert (HM : 0 < log10 (d + 1)) by (apply log10_pos; lra).
  assert (HP : 0 <= (f / 1000) * log10 (d + 1)).
  { apply Rmult_le_pos; lra. }
  set (L := log10 (d / 1000 + 0.001)) in *.
  set (M := log10 (d + 1)) in *.
  replace (0.05 * (f / 1000) * M) with (0.05 * ((f / 1000) * M)) by lra.
  replace (0.1 * (f / 1000) * M) with (0.1 * ((f / 1000) * M)) by lra.
  set (P := (f / 1000) * M) in *.
  assert (HL : 0 < 3 + 5 * L).
  { unfold Rmax in Hr. destruct (Rle_dec 0 (3 + 5 * L)); lra. }
  repeat split; apply Rmax_0_mono; lra.
Qed.

(** C9: for positive distance and frequency, each of the four categories
    gets a clamped additional loss, and where these four losses are positive
    they are ordered rural_macro, suburban, urban_macro, urban_dense. *)
Theorem additional_loss_ordering (distance_m frequency_mhz : R) :
  0 < distance_m ->
  0 < frequency_mhz ->
  exists rural suburban macro dense : R,
    additional_loss "rural_macro" distance_m frequency_mhz (km_of distance_m)
      = Some rural /\
    additional_loss "suburban" distance_m frequency_mhz (km_of distance_m)
      = Some suburban /\
    additional_loss "urban_macro" distance_m frequency_mhz (km_of distance_m)
      = Some macro /\
    additional_loss "urban_dense" distance_m frequency_mhz (km_of distance_m)
      = Some dense /\
    (0 < rural -> 0 < suburban -> 0 < macro -> 0 < dense ->
     rural <= suburban /\ suburban <= macro /\ macro <= dense).
Proof.
  intros Hd Hf.
  rewrite additional_loss_rural_macro, additional_loss_suburban,
    additional_loss_urban_macro, additional_loss_urban_dense by assumption.
  do 4 eexists.
  do 4 (split; [reflexivity |]).
  intros Hr _ _ _.
  now apply loss_order_from_rural.
Qed.

(** At 999 m and 1000 MHz the four losses are positive, so the ordering of
    C9 is not vacuous there. *)
Lemma additional_loss_ordering_witness :
  exists rural suburban macro dense : R,
    additional_loss "rural_macro" 999 1000 (km_of 999) = Some rural /\
    additional_loss "suburban" 999 1000 (km_of 999) = Some suburban /\
    additional_loss "urban_macro" 999 1000 (km_of 999) = Some macro /\
    additional_loss "urban_dense" 999 1000 (km_of 999) = Some dense /\
    (0 < rural /\ 0 < suburban /\ 0 < macro /\ 0 < dense) /\
    rural <= suburban /\ suburban <= macro /\ macro <= dense.
Proof.
  assert (H1 : (0 < 999)%R) by lra.
  assert (H2 : (0 < 1000)%R) by lra.
  destruct (additional_loss_ordering 999 1000 H1 H2)
    as (r & s & m & u & Er & Es & Em & Eu & Hord).
  exists r, s, m, u.
  do 4 (split; [assumption |]).
  assert (Hpos : 0 < r /\ 0 < s /\ 0 < m /\ 0 < u).
  { rewrite additional_loss_rural_macro in Er by lra.
    rewrite additional_loss_suburban in Es by lra.
    rewrite additional_loss_urban_macro in Em by lra.
    rewrite additional_loss_urban_dense in Eu by lra.
    injection Er as <-. injection Es as <-.
    injection Em as <-. injection Eu as <-.
    replace (999 / 1000 + 0.001) with 1 by lra.
    rewrite log10_1.
    assert (HM : 0 < log10 (999 + 1)) by (apply log10_pos; lra).
    repeat split; (eapply Rlt_le_trans; [| apply Rmax_r]); lra. }
  split; [exact Hpos |].
  destruct Hpos as (Hr & Hs & Hm & Hu).
  exact (Hord Hr Hs Hm Hu).
Defined.

(** The positivity of C9 is needed: at 99 m and 1000 MHz the rural loss is
    clamped to 0 and the urban_dense loss (2.2 dB) is below the urban_macro
    one (3.1 dB). *)
Lemma loss_order_broken_at_99m :
  additional_loss "rural_macro" 99 1000 (km_of 99) = Some 0 /\
  exists macro dense : R,
    additional_loss "urban_macro" 99 1000 (km_of 99) = Some macro /\
    additional_loss "urban_dense" 99 1000 (km_of 99) = Some dense /\
    0 < dense /\ dense < macro.
Proof.
  rewrite additional_loss_rural_macro, additional_loss_urban_macro,
    additional_loss_urban_dense by lra.
  replace (99 / 1000 + 0.001) with (/ 10) by lra.
  replace (99 + 1) with 100 by lra.
  rewrite log10_tenth, log10_100.
  split.
  - f_equal. apply Rmax_left. lra.
  - do 2 eexists. split; [reflexivity |]. split; [reflexivity |].
    rewrite !Rmax_right by lra. lra.
Qed.

(** ** Arrays of two dimensions *)

Lemma rectangular_size {A : Type} (n m : nat) (a : array2 A) :
  rectangular n m a -> size a = (n * m)%nat.
Proof.
  unfold rectangular, size. intros [Hn Hrows]. subst n.
  induction Hrows as [| row rest Hrow _ IH]; [reflexivity |].
  cbn [concat length]. rewrite length_app, Hrow, IH. reflexivity.
Qed.

Lemma rectangular_shape {A : Type} (n m : nat) (a : array2 A) :
  (0 < n)%nat -> rectangular n m a -> shape a = (n, m).
Proof.
  unfold rectangular, shape. intros Hpos [Hn Hrows].
  destruct a as [| row rest]; cbn in *; [lia |].
  inversion Hrows; subst. reflexivity.
Qed.

Lemma rectangular_row {A : Type} (n m i : nat) (a : array2 A) :
  rectangular n m a -> (i < n)%nat -> length (nth i a []) = m.
Proof.
  unfold rectangular. intros [Hn Hrows] Hi.
  rewrite Forall_forall in Hrows. apply Hrows, nth_In. lia.
Qed.

Lemma zip_with_length {A B C : Type} (f : A -> B -> C) (l : list A) (l' : list B) :
  length (zip_with f l l') = Nat.min (length l) (length l').
Proof.
  revert l'. induction l as [| a t IH]; intros [| b t']; cbn; auto.
Qed.

Lemma zip_with_nth {A B C : Type} (f : A -> B -> C) (da : A) (db : B) (dc : C)
    (l : list A) (l' : list B) (i : nat) :
  (i < length l)%nat -> (i < length l')%nat ->
  nth i (zip_with f l l') dc = f (nth i l da) (nth i l' db).
Proof.
  revert l' i. induction l as [| a t IH]; intros [| b t'] [| i]; cbn;
    intros H1 H2; try lia; [reflexivity |].
  apply IH; lia.
Qed.

Lemma map_nth_in {A B : Type} (f : A -> B) (l : list A) (d : A) (d' : B) (i : nat) :
  (i < length l)%nat -> nth i (map f l) d' = f (nth i l d).
Proof.
  intros Hi. rewrite (nth_indep _ d' (f d)) by (rewrite length_map; exact Hi).
  apply map_nth.
Qed.

Lemma rectangular_zip_with {A B C : Type} (f : A -> B -> C) (n m : nat)
    (a : array2 A) (b : array2 B) :
  rectangular n m a -> rectangular n m b ->
  rectangular n m (zip_with (zip_with f) a b).
Proof.
  unfold rectangular. intros [Ha Hra] [Hb Hrb]. split.
  - rewrite zip_with_length. lia.
  - clear Ha Hb. revert b Hrb.
    induction Hra as [| ra ta Hlen _ IH]; intros b Hrb; [constructor |].
    destruct Hrb as [| rb tb Hlenb Hrb]; [constructor |].
    cbn [zip_with]. constructor.
    + rewrite zip_with_length. lia.
    + apply IH, Hrb.
Qed.

Lemma rectangular_map {A B : Type} (f : A -> B) (n m : nat) (a : array2 A) :
  rectangular n m a -> rectangular n m (map (map f) a).
Proof.
  unfold rectangular. intros [Ha Hra]. split.
  - rewrite length_map. exact Ha.
  - rewrite Forall_map. eapply Forall_impl; [| exact Hra].
    cbn. intros row Hrow. rewrite length_map. exact Hrow.
Qed.

Lemma meshgrid_rectangular (x y : list R) :
  rectangular (length y) (length x) (fst (mesh_of x y)) /\
  rectangular (length y) (length x) (snd (mesh_of x y)).
Proof.
  unfold mesh_of, rectangular. cbn [fst snd].
  rewrite !length_map. repeat split.
  - rewrite Forall_map. apply Forall_forall. reflexivity.
  - rewrite Forall_map. apply Forall_forall. intros yj _.
    apply length_map.
Qed.

Lemma meshgrid_cell (x y : list R) (i j : nat) :
  (i < length y)%nat -> (j < length x)%nat ->
  at2 (fst (mesh_of x y)) i j = nth j x 0 /\
  at2 (snd (mesh_of x y)) i j = nth i y 0.
Proof.
  intros Hi Hj. unfold mesh_of, at2. cbn [fst snd]. split.
  - rewrite (map_nth_in (fun _ => x) y 0 [] i) by exact Hi. reflexivity.
  - rewrite (map_nth_in (fun yj => map (fun _ => yj) x) y 0 [] i) by exact Hi.
    rewrite (map_nth_in (fun _ => nth i y 0) x 0 0 j) by exact Hj.
    reflexivity.
Qed.

(** ** The grid builder *)

(** What a returning [np.arange] returns. *)
Lemma np_arange_inr (np : numpy) (start stop step : R) (l : list R) :
  np_arange np start stop step = inr l ->
  (arange_length np start stop step <= NPY_MAX_INTP)%Z /\
  allocate np (Z.to_nat (arange_length np start stop step)) = None /\
  l = map (fun i => start + INR i * step)
          (seq 0 (Z.to_nat (arange_length np start stop step))).
Proof.
  unfold np_arange.
  destruct (NPY_MAX_INTP <? arange_length np start stop step)%Z eqn:E;
    [discriminate |].
  apply Z.ltb_ge in E.
  destruct (allocate np (Z.to_nat (arange_length np start stop step)));
    [discriminate |].
  intros H. injection H as <-. auto.
Qed.

Lemma np_arange_too_long (np : numpy) (start stop step : R) :
  (NPY_MAX_INTP < arange_length np start stop step)%Z ->
  np_arange np start stop step = inl ValueError.
Proof.
  intros H. unfold np_arange.
  apply Z.ltb_lt in H. rewrite H. reflexivity.
Qed.

Lemma arange_nth (np : numpy) (start stop step : R) (l : list R) (j : nat) :
  np_arange np start stop step = inr l ->
  (j < length l)%nat ->
  nth j l 0 = start + INR j * step.
Proof.
  intros H. apply np_arange_inr in H as (_ & _ & ->).
  rewrite length_map, length_seq. intros Hj.
  rewrite (map_nth_in _ _ 0%nat) by (rewrite length_seq; exact Hj).
  rewrite seq_nth by exact Hj. reflexivity.
Qed.

Lemma arange_nonempty (np : numpy) (lo hi step : R) (l : list R) :
  arange_sound np -> 0 < step -> lo < hi ->
  np_arange np lo (hi + step) step = inr l ->
  (0 < length l)%nat.
Proof.
  intros Hnp Hs Hlt H. apply np_arange_inr in H as (_ & _ & ->).
  rewrite length_map, length_seq.
  specialize (Hnp lo hi step Hs Hlt). lia.
Qed.

(** One axis of [create_grid], after line 77 or 78: it is not empty, its
    samples are [lo + j * step], and it is [lo] alone when the bounds are
    not strictly ordered. *)
Lemma axis_spec (np : numpy) (lo hi step : R) (l : list R) :
  arange_sound np -> 0 < step ->
  np_arange np lo (hi + step) step = inr l ->
  let axis := if Rge_dec lo hi then [lo] else l in
  (0 < length axis)%nat /\
  (forall j, (j < length axis)%nat -> nth j axis 0 = lo + INR j * step).
Proof.
  intros Hnp Hs Hl. cbv zeta.
  destruct (Rge_dec lo hi) as [Hge | Hlt].
  - split; [cbn; lia |].
    intros j Hj. cbn in Hj. assert (j = 0%nat) by lia. subst j.
    cbn [nth INR]. lra.
  - split.
    + apply (arange_nonempty np lo hi step); try assumption. lra.
    + intros j Hj. now apply (arange_nth np lo (hi + step) step).
Qed.

(** A grid that is returned is the mesh of the two axes. *)
Lemma create_grid_inr (np : numpy) (x_min x_max y_min y_max step : R)
    (xx yy : array2 R) :
  create_grid np x_min x_max y_min y_max step = inr (xx, yy) ->
  0 < step /\
  exists x y : list R,
    np_arange np x_min (x_max + step) step = inr x /\
    np_arange np y_min (y_max + step) step = inr y /\
    (xx, yy) = mesh_of (if Rge_dec x_min x_max then [x_min] else x)
                       (if Rge_dec y_min y_max then [y_min] else y).
Proof.
  unfold create_grid.
  destruct (Rle_dec step 0) as [Hle | Hgt]; [discriminate |].
  destruct (np_arange np x_min (x_max + step) step) as [e | x] eqn:Ex;
    [discriminate |].
  destruct (np_arange np y_min (y_max + step) step) as [e | y] eqn:Ey;
    [discriminate |].
  cbv zeta. unfold np_meshgrid.
  destruct (allocate np _); [discriminate |].
  intros H. injection H as <- <-. split; [lra |].
  exists x, y. repeat split; reflexivity.
Qed.

Lemma create_grid_returns (np : numpy) (x_min x_max y_min y_max step : R)
    (x y : list R) :
  0 < step ->
  np_arange np x_min (x_max + step) step = inr x ->
  np_arange np y_min (y_max + step) step = inr y ->
  allocate np
    (length (if Rge_dec y_min y_max then [y_min] else y)
     * length (if Rge_dec x_min x_max then [x_min] else x)) = None ->
  create_grid np x_min x_max y_min y_max step =
  inr (mesh_of (if Rge_dec x_min x_max then [x_min] else x)
               (if Rge_dec y_min y_max then [y_min] else y)).
Proof.
  intros Hs Hx Hy Ha. unfold create_grid.
  destruct (Rle_dec step 0) as [Hle | _]; [lra |].
  rewrite Hx, Hy. cbv zeta. unfold np_meshgrid. rewrite Ha. reflexivity.
Qed.

(** The cells of a grid that is returned. *)
Lemma create_grid_cells (np : numpy) (x_min x_max y_min y_max step : R)
    (xx yy : array2 R) :
  arange_sound np ->
  create_grid np x_min x_max y_min y_max step = inr (xx, yy) ->
  exists ny nx : nat,
    (0 < ny)%nat /\ (0 < nx)%nat /\
    rectangular ny nx xx /\ rectangular ny nx yy /\
    (forall i j, (i < ny)%nat -> (j < nx)%nat ->
       at2 xx i j = x_min + INR j * step /\
       at2 yy i j = y_min + INR i * step) /\
    (x_max <= x_min -> nx = 1%nat) /\
    (y_max <= y_min -> ny = 1%nat).
Proof.
  intros Hnp Hgrid.
  apply create_grid_inr in Hgrid as (Hs & x & y & Hx & Hy & Heq).
  pose proof (axis_spec np x_min x_max step x Hnp Hs Hx) as Ax.
  pose proof (axis_spec np y_min y_max step y Hnp Hs Hy) as Ay.
  cbv zeta in Ax, Ay.
  assert (Dx : x_max <= x_min ->
               length (if Rge_dec x_min x_max then [x_min] else x) = 1%nat).
  { intros H. destruct (Rge_dec x_min x_max); [reflexivity | lra]. }
  assert (Dy : y_max <= y_min ->
               length (if Rge_dec y_min y_max then [y_min] else y) = 1%nat).
  { intros H. destruct (Rge_dec y_min y_max); [reflexivity | lra]. }
  set (x' := if Rge_dec x_min x_max then [x_min] else x) in *.
  set (y' := if Rge_dec y_min y_max then [y_min] else y) in *.
  destruct Ax as [Hx0 Hxn]. destruct Ay as [Hy0 Hyn].
  assert (Exx : xx = fst (mesh_of x' y')) by (rewrite <- Heq; reflexivity).
  assert (Eyy : yy = snd (mesh_of x' y')) by (rewrite <- Heq; reflexivity).
  subst xx yy.
  exists (length y'), (length x').
  split; [exact Hy0 |]. split; [exact Hx0 |].
  split; [apply meshgrid_rectangular |].
  split; [apply meshgrid_rectangular |].
  split; [| split; assumption].
  intros i j Hi Hj.
  destruct (meshgrid_cell x' y' i j Hi Hj) as [-> ->].
  split; [now apply Hxn | now apply Hyn].
Qed.

(** *** NumPy over the reals *)

Lemma ideal_sound : arange_sound ideal.
Proof.
  intros lo hi step Hs Hlt. cbn [arange_length ideal].
  assert (H1 : 1 < (hi + step - lo) / step).
  { apply Rmult_lt_reg_r with step; [assumption |].
    unfold Rdiv. rewrite Rmult_assoc, Rinv_l by lra. lra. }
  pose proof (Zceil_bound ((hi + step - lo) / step)) as [_ Hub].
  assert (H2 : (1 < Zceil ((hi + step - lo) / step))%Z)
    by (apply lt_IZR; lra).
  lia.
Qed.

Lemma ideal_arange (start stop step : R) :
  (stop - start) / step <= 1000000 ->
  np_arange ideal start stop step =
  inr (map (fun i => start + INR i * step)
           (seq 0 (Z.to_nat (Zceil ((stop - start) / step))))).
Proof.
  intros Hq. unfold np_arange. cbn [arange_length allocate ideal].
  pose proof (Zceil_bound ((stop - start) / step)) as [Hlb _].
  assert (H : (Zceil ((stop - start) / step) < NPY_MAX_INTP)%Z).
  { apply lt_IZR. unfold NPY_MAX_INTP. lra. }
  apply Z.lt_le_incl, Z.ltb_ge in H. rewrite H. reflexivity.
Qed.

(** A grid of ordinary size is returned by the ideal NumPy. *)
Lemma ideal_create_grid (x_min x_max y_min y_max step : R) :
  0 < step ->
  (x_max + step - x_min) / step <= 1000000 ->
  (y_max + step - y_min) / step <= 1000000 ->
  exists xx yy : array2 R,
    create_grid ideal x_min x_max y_min y_max step = inr (xx, yy).
Proof.
  intros Hs Hx Hy.
  eexists. eexists.
  rewrite (create_grid_returns ideal x_min x_max y_min y_max step _ _ Hs
             (ideal_arange _ _ _ Hx) (ideal_arange _ _ _ Hy) eq_refl).
  unfold mesh_of. reflexivity.
Qed.

(** The axis of the specification's example over the reals: from 0 to 100 by
    steps of 10, eleven samples, the last one 100. *)
Example arange_0_100_10 :
  exists l : list R,
    np_arange ideal 0 (100 + 10) 10 = inr l /\
    length l = 11%nat /\ nth 0 l 0 = 0 /\ nth 10 l 0 = 100.
Proof.
  eexists. split; [apply ideal_arange; lra |].
  assert (E : Zceil ((100 + 10 - 0) / 10) = 11%Z).
  { apply Zceil_eq. lra. }
  rewrite E. change (Z.to_nat 11) with 11%nat.
  cbn [seq map length nth].
  split; [reflexivity |].
  rewrite (INR_IZR_INZ 10). cbn [INR Z.of_nat Pos.of_succ_nat Pos.succ].
  split; lra.
Qed.

Lemma create_grid_fails_positive_step_ideal :
  create_grid ideal 0 1000000000000000000 0 0 0.01 = inl ValueError.
Proof.
  unfold create_grid.
  destruct (Rle_dec 0.01 0) as [Hle | _]; [lra |].
  rewrite np_arange_too_long; [reflexivity |].
  cbn [arange_length ideal].
  pose proof (Zceil_bound ((1000000000000000000 + 0.01 - 0) / 0.01))
    as [_ Hub].
  apply lt_IZR. unfold NPY_MAX_INTP. lra.
Qed.

(** C5, as the code has it.  [create_grid] raises its [ValueError] on its
    first statement whenever the step is not positive, and a run with such
    a step stops without consulting the evaluation at all.  A positive step
    does not exclude the failure: an axis that would need more than
    [2 ^ 63 - 1] samples makes [np.arange] raise a [ValueError] too.  With a
    positive step the grid is returned whenever the two calls of
    [np.arange] and the call of [np.meshgrid] return, and a grid that is
    returned is a mesh: two arrays of one non-empty rectangular shape whose
    cell [(i, j)] holds [x_min + j * step] and [y_min + i * step]. *)
Theorem create_grid_failures (np : numpy) (x_min x_max y_min y_max step : R) :
  arange_sound np ->
  (step <= 0 ->
   create_grid np x_min x_max y_min y_max step = inl ValueError) /\
  (step <= 0 ->
   forall evaluate bs_params tx_power frequency antenna_gain env_type_key,
     run_simulation_with np evaluate bs_params tx_power frequency
       antenna_gain env_type_key x_min x_max y_min y_max step = StepAbort) /\
  (0 < step ->
   (NPY_MAX_INTP < arange_length np x_min (x_max + step) step)%Z \/
   ((exists x, np_arange np x_min (x_max + step) step = inr x) /\
    (NPY_MAX_INTP < arange_length np y_min (y_max + step) step)%Z) ->
   create_grid np x_min x_max y_min y_max step = inl ValueError) /\
  (0 < step ->
   forall x y : list R,
     np_arange np x_min (x_max + step) step = inr x ->
     np_arange np y_min (y_max + step) step = inr y ->
     allocate np
       (length (if Rge_dec y_min y_max then [y_min] else y)
        * length (if Rge_dec x_min x_max then [x_min] else x)) = None ->
     exists xx yy : array2 R,
       create_grid np x_min x_max y_min y_max step = inr (xx, yy)) /\
  (forall xx yy : array2 R,
     create_grid np x_min x_max y_min y_max step = inr (xx, yy) ->
     0 < step /\
     exists ny nx : nat,
       (0 < ny)%nat /\ (0 < nx)%nat /\
       rectangular ny nx xx /\ rectangular ny nx yy /\
       forall i j, (i < ny)%nat -> (j < nx)%nat ->
         at2 xx i j = x_min + INR j * step /\
         at2 yy i j = y_min + INR i * step).
Proof.
  intros Hnp.
  split; [| split; [| split; [| split]]].
  - intros Hle. unfold create_grid.
    destruct (Rle_dec step 0) as [_ | Hn]; [reflexivity | contradiction].
  - intros Hle evaluate bs tx f g env. unfold run_simulation_with.
    destruct (Rle_dec step 0) as [_ | Hn]; [reflexivity | contradiction].
  - intros Hs Hlong. unfold create_grid.
    destruct (Rle_dec step 0) as [Hle | _]; [reflexivity |].
    destruct Hlong as [Hlong | [[x Hx] Hlong]].
    + rewrite (np_arange_too_long np _ _ _ Hlong). reflexivity.
    + rewrite Hx, (np_arange_too_long np _ _ _ Hlong). reflexivity.
  - intros Hs x y Hx Hy Ha.
    rewrite (create_grid_returns np x_min x_max y_min y_max step x y
               Hs Hx Hy Ha).
    unfold mesh_of. eexists. eexists. reflexivity.
  - intros xx yy Hgrid.
    split; [apply (create_grid_inr np _ _ _ _ _ _ _ Hgrid) |].
    destruct (create_grid_cells np _ _ _ _ _ _ _ Hnp Hgrid)
      as (ny & nx & H1 & H2 & H3 & H4 & H5 & _).
    exists ny, nx. auto.
Qed.

Lemma create_grid_failures_witness :
  create_grid ideal 0 100 0 100 (-10) = inl ValueError /\
  exists xx yy : array2 R,
    create_grid ideal 0 100 0 100 10 = inr (xx, yy) /\
    exists ny nx : nat,
      (0 < ny)%nat /\ (0 < nx)%nat /\
      rectangular ny nx xx /\ rectangular ny nx yy /\
      forall i j, (i < ny)%nat -> (j < nx)%nat ->
        at2 xx i j = 0 + INR j * 10 /\
        at2 yy i j = 0 + INR i * 10.
Proof.
  split.
  - apply (proj1 (create_grid_failures ideal 0 100 0 100 (-10) ideal_sound)).
    lra.
  - destruct (create_grid_failures ideal 0 100 0 100 10 ideal_sound)
      as (_ & _ & _ & Hret & Hmesh).
    assert (Hs : 0 < 10) by lra.
    assert (Hq : (100 + 10 - 0) / 10 <= 1000000) by lra.
    destruct (Hret Hs _ _ (ideal_arange 0 (100 + 10) 10 Hq)
                (ideal_arange 0 (100 + 10) 10 Hq) eq_refl)
      as (xx & yy & E).
    exists xx, yy. split; [exact E |].
    apply (Hmesh xx yy E).
Defined.

(** C5 as stated fails: with the positive step 0.01 and the range from 0 to
    [10 ^ 18] the x axis would need [10 ^ 20] samples, and [create_grid]
    fails with the same [ValueError] as for a step that is not positive. *)
Lemma create_grid_fails_with_positive_step :
  0 < 0.01 /\
  create_grid ideal 0 1000000000000000000 0 0 0.01 = inl ValueError.
Proof.
  split; [lra | exact create_grid_fails_positive_step_ideal].
Qed.

(** ** The field evaluator *)

(** The model is total: every logarithm it reaches has a positive
    argument. *)
Lemma signal_strength_model_total (d tx f g : R) (env : string) :
  exists v : R, signal_strength_model d tx f g env = Some v.
Proof.
  destruct (Rle_dec d 0) as [Hd | Hd].
  - eexists. unfold signal_strength_model.
    destruct (Rle_dec d 0); [reflexivity | contradiction].
  - destruct (Rle_dec f 0) as [Hf | Hf].
    + eexists. unfold signal_strength_model.
      destruct (Rle_dec d 0); [contradiction |].
      destruct (Rle_dec f 0); [reflexivity | contradiction].
    + rewrite model_regular by lra.
      destruct (additional_loss_shape env) as (A & B & C & _ & _ & Heq).
      rewrite Heq by lra. cbn [bind]. eexists. reflexivity.
Qed.

Lemma is_1x1_rectangular {A : Type} (n m : nat) (a : array2 A) :
  (0 < n)%nat -> rectangular n m a ->
  is_1x1 a = true -> n = 1%nat /\ m = 1%nat.
Proof.
  intros Hn Hrect. unfold is_1x1.
  rewrite (rectangular_shape n m a Hn Hrect).
  intros H. apply andb_true_iff in H as [H1 H2].
  apply Nat.eqb_eq in H1, H2. auto.
Qed.

(** The array [distances] of [simulate_signal_strength]: on a grid of one
    shape both branches give the element-wise Euclidean distance. *)
Lemma distances_spec (n m : nat) (xx yy : array2 R) (bs_x bs_y : R) :
  (0 < n)%nat -> (0 < m)%nat ->
  rectangular n m xx -> rectangular n m yy ->
  let distances :=
    if is_1x1 xx && is_1x1 yy
    then [[euclid bs_x bs_y (at2 xx 0 0) (at2 yy 0 0)]]
    else zip_with (zip_with (euclid bs_x bs_y)) xx yy in
  rectangular n m distances /\
  forall i j, (i < n)%nat -> (j < m)%nat ->
    nth j (nth i distances []) 0 = euclid bs_x bs_y (at2 xx i j) (at2 yy i j).
Proof.
  intros Hn Hm Hxx Hyy.
  destruct (is_1x1 xx && is_1x1 yy) eqn:E; cbv zeta.
  - apply andb_true_iff in E as [E1 _].
    destruct (is_1x1_rectangular n m xx Hn Hxx E1) as [-> ->].
    split.
    + split; [reflexivity |]. constructor; [reflexivity | constructor].
    + intros i j Hi Hj.
      assert (i = 0%nat) by lia. assert (j = 0%nat) by lia. subst.
      reflexivity.
  - split; [now apply rectangular_zip_with |].
    intros i j Hi Hj.
    pose proof Hxx as [Lx _]. pose proof Hyy as [Ly _].
    rewrite (zip_with_nth _ [] [] []) by lia.
    unfold at2.
    apply zip_with_nth.
    + rewrite (rectangular_row n m i xx) by assumption. exact Hj.
    + rewrite (rectangular_row n m i yy) by assumption. exact Hj.
Qed.

Lemma first_of_rectangular (n m : nat) (a : array2 R) :
  (0 < n)%nat -> (0 < m)%nat -> rectangular n m a ->
  hd 0 (concat a) = nth 0 (nth 0 a []) 0.
Proof.
  intros Hn Hm [Hlen Hrows].
  destruct a as [| row rest]; [cbn in Hlen; lia |].
  inversion Hrows as [| ? ? Hrow _]; subst.
  destruct row as [| d row]; [cbn in Hm; lia |].
  reflexivity.
Qed.

(** On a grid of one non-empty shape the evaluation is the model mapped
    over the element-wise distances and converted to the type of the
    result at the first cell. *)
Lemma simulate_cells (n m : nat) (xx yy : array2 R)
    (bs_x bs_y : R) (tx : pynum) (f g : R) (env : string) :
  (0 < n)%nat -> (0 < m)%nat ->
  rectangular n m xx -> rectangular n m yy ->
  exists strengths : field,
    simulate_signal_strength (xx, yy) (bs_x, bs_y) tx f g env
      = inr strengths /\
    rectangular n m strengths /\
    forall i j, (i < n)%nat -> (j < m)%nat ->
      nth j (nth i strengths []) None =
      to_otype
        (returns_int tx (euclid bs_x bs_y (at2 xx 0 0) (at2 yy 0 0)) f)
        (signal_strength_model (euclid bs_x bs_y (at2 xx i j) (at2 yy i j))
           (num_val tx) f g env).
Proof.
  intros Hn Hm Hxx Hyy.
  unfold simulate_signal_strength.
  pose proof (distances_spec n m xx yy bs_x bs_y Hn Hm Hxx Hyy) as HD.
  cbv zeta in HD.
  set (distances := if is_1x1 xx && is_1x1 yy
                    then [[euclid bs_x bs_y (at2 xx 0 0) (at2 yy 0 0)]]
                    else zip_with (zip_with (euclid bs_x bs_y)) xx yy) in *.
  destruct HD as [Hrect Hcells].
  assert (Hsize : (size distances =? 0)%nat = false).
  { apply Nat.eqb_neq. rewrite (rectangular_size n m) by assumption. nia. }
  rewrite Hsize.
  rewrite (first_of_rectangular n m distances Hn Hm Hrect).
  rewrite (Hcells 0%nat 0%nat Hn Hm).
  set (int64 := returns_int tx
                  (euclid bs_x bs_y (at2 xx 0 0) (at2 yy 0 0)) f).
  set (model := fun distance : R =>
                  to_otype int64
                    (signal_strength_model distance (num_val tx) f g env)).
  assert (Hcell : forall i j, (i < n)%nat -> (j < m)%nat ->
            nth j (nth i (map (map model) distances) []) None =
            model (euclid bs_x bs_y (at2 xx i j) (at2 yy i j))).
  { intros i j Hi Hj.
    pose proof Hrect as [Hlen _].
    rewrite (map_nth_in (map model) distances [] [] i) by lia.
    rewrite (map_nth_in model _ 0 None j)
      by (rewrite (rectangular_row n m i distances) by assumption; exact Hj).
    rewrite Hcells by assumption. reflexivity. }
  exists (map (map model) distances). split; [reflexivity |].
  split; [now apply rectangular_map | exact Hcell].
Qed.

(** ** The statistics *)

Lemma size_concat (a : field) : size a = length (concat a).
Proof. reflexivity. Qed.

Lemma forallb_isnan_drop (data : list cell) :
  forallb isnan data = true <-> drop_nan data = [].
Proof.
  induction data as [| [v |] t IH]; cbn.
  - tauto.
  - split; discriminate.
  - exact IH.
Qed.

Lemma drop_nan_length_le (data : list cell) :
  (length (drop_nan data) <= length data)%nat.
Proof.
  induction data as [| [v |] t IH]; cbn; lia.
Qed.

Lemma drop_nan_all_valid (data : list cell) :
  forallb (fun c => negb (isnan c)) data = true ->
  length (drop_nan data) = length data.
Proof.
  induction data as [| [v |] t IH]; cbn; intros H;
    [reflexivity | f_equal; auto | discriminate].
Qed.

(** Every real value lies in exactly one tier; a [nan] lies in none. *)
Lemma tiers_partition (data : list cell) :
  let cc := count_tiers data in
  (excellent cc + good cc + fair cc + marginal cc + poor cc)%nat
  = length (drop_nan data).
Proof.
  cbn. unfold count_where.
  induction data as [| [v |] t IH]; cbn [filter drop_nan length].
  - reflexivity.
  - unfold Rgeb, Rltb, excellent_rsrp, good_rsrp, fair_rsrp, poor_rsrp in *.
    Rdecide; cbn [andb length]; lia.
  - exact IH.
Qed.

Lemma generate_analysis_report_some (strengths_data : field) :
  drop_nan (concat strengths_data) <> [] ->
  generate_analysis_report strengths_data =
  Some {| counts := count_tiers (concat strengths_data);
          total_points := size strengths_data;
          rows := map (fun count =>
                         (count, INR count / INR (size strengths_data) * 100))
                      [excellent (count_tiers (concat strengths_data));
                       good (count_tiers (concat strengths_data));
                       fair (count_tiers (concat strengths_data));
                       marginal (count_tiers (concat strengths_data));
                       poor (count_tiers (concat strengths_data))] |}.
Proof.
  intros Hvalid. unfold generate_analysis_report.
  assert (Hnan : forallb isnan (concat strengths_data) = false).
  { apply not_true_is_false. intros H. apply Hvalid.
    now apply forallb_isnan_drop. }
  assert (Hsz : (0 < size strengths_data)%nat).
  { rewrite size_concat.
    destruct (concat strengths_data); [contradiction | cbn; lia]. }
  assert (E0 : (size strengths_data =? 0)%nat = false)
    by (apply Nat.eqb_neq; lia).
  assert (E1 : (0 <? size strengths_data)%nat = true)
    by (apply Nat.ltb_lt; lia).
  rewrite E0, Hnan, E1. cbn [orb]. unfold percentage. rewrite E1.
  reflexivity.
Qed.

Lemma sum_five (n : R) (a b c d e : nat) :
  n <> 0 ->
  fold_right Rplus 0
    (map snd (map (fun count => (count, INR count / n * 100)) [a; b; c; d; e]))
  = INR (a + b + c + d + e) / n * 100.
Proof.
  intros Hn. cbn [map snd fold_right]. rewrite !plus_INR. field. exact Hn.
Qed.

(** C3, as the code has it: the percentage of a tier is its count over the
    number of all cells of the field, [nan] cells included, times 100.  A
    field with a valid value gets a report whose five percentages sum to
    100 times the share of valid cells, hence to 100 when no cell is [nan];
    a field with no valid value gets no report at all. *)
Theorem report_percentages (strengths_data : field) :
  let data := concat strengths_data in
  (drop_nan data = [] -> generate_analysis_report strengths_data = None) /\
  (drop_nan data <> [] ->
   exists rep : report,
     generate_analysis_report strengths_data = Some rep /\
     total_points rep = size strengths_data /\
     rows rep =
       map (fun count => (count, INR count / INR (size strengths_data) * 100))
           [excellent (counts rep); good (counts rep); fair (counts rep);
            marginal (counts rep); poor (counts rep)] /\
     counts rep = count_tiers data /\
     sum_percentages rep =
       INR (length (drop_nan data)) / INR (size strengths_data) * 100 /\
     (forallb (fun c => negb (isnan c)) data = true ->
      sum_percentages rep = 100)).
Proof.
  cbv zeta. split.
  - intros Hnone. unfold generate_analysis_report.
    apply forallb_isnan_drop in Hnone. rewrite Hnone.
    rewrite orb_true_r. reflexivity.
  - intros Hvalid.
    rewrite (generate_analysis_report_some strengths_data Hvalid).
    assert (Hsz : (0 < size strengths_data)%nat).
    { rewrite size_concat.
      destruct (concat strengths_data); [contradiction | cbn; lia]. }
    assert (Hn : INR (size strengths_data) <> 0).
    { apply not_0_INR. lia. }
    eexists. split; [reflexivity |].
    unfold sum_percentages. cbn [total_points rows counts].
    do 3 (split; [reflexivity |]).
    rewrite sum_five by exact Hn.
    rewrite (tiers_partition (concat strengths_data)).
    split; [reflexivity |].
    intros Hall.
    rewrite (drop_nan_all_valid _ Hall), <- size_concat.
    field. exact Hn.
Qed.

Lemma report_percentages_witness :
  exists rep : report,
    generate_analysis_report [[Some (-70); Some (-100)]] = Some rep /\
    total_points rep = 2%nat /\
    sum_percentages rep = 100.
Proof.
  destruct (report_percentages [[Some (-70); Some (-100)]]) as [_ H].
  destruct H as (rep & Hrep & Htot & _ & _ & _ & Hsum).
  - cbn. discriminate.
  - exists rep. split; [exact Hrep |]. split; [exact Htot |].
    apply Hsum. reflexivity.
Defined.

(** C3 as stated fails on a field with a [nan] cell: of the two cells one is
    valid, the code divides by 2 where the specification divides by 1, and
    the percentages sum to 50.  On an all-[nan] field there are no
    percentages, rather than five zeros. *)
Lemma percentages_count_nan_cells :
  exists rep : report,
    generate_analysis_report [[None; Some (-70)]] = Some rep /\
    spec_total_valid_points [[None; Some (-70)]] = 1%nat /\
    total_points rep = 2%nat /\
    rows rep = [(1%nat, INR 1 / INR 2 * 100); (0%nat, INR 0 / INR 2 * 100);
                (0%nat, INR 0 / INR 2 * 100); (0%nat, INR 0 / INR 2 * 100);
                (0%nat, INR 0 / INR 2 * 100)] /\
    sum_percentages rep = 50 /\
    sum_percentages rep <> 100 /\
    generate_analysis_report [[None]] = None.
Proof.
  assert (Hc : count_tiers [None; Some (-70)] =
               {| excellent := 1; good := 0; fair := 0; marginal := 0;
                  poor := 0 |}).
  { unfold count_tiers, count_where, Rgeb, Rltb,
      excellent_rsrp, good_rsrp, fair_rsrp, poor_rsrp.
    cbn [filter]. Rdecide. reflexivity. }
  eexists. split.
  { apply generate_analysis_report_some. cbn. discriminate. }
  cbn [concat app]. unfold cell. rewrite Hc.
  cbn [total_points rows excellent good fair marginal poor size concat app
       length map].
  split; [reflexivity |]. split; [reflexivity |]. split; [reflexivity |].
  assert (Hs : sum_percentages
                 {| counts := {| excellent := 1; good := 0; fair := 0;
                                 marginal := 0; poor := 0 |};
                    total_points := 2;
                    rows := [(1%nat, INR 1 / INR 2 * 100);
                             (0%nat, INR 0 / INR 2 * 100);
                             (0%nat, INR 0 / INR 2 * 100);
                             (0%nat, INR 0 / INR 2 * 100);
                             (0%nat, INR 0 / INR 2 * 100)] |} = 50).
  { unfold sum_percentages. cbn [rows map snd fold_right INR]. lra. }
  split; [exact Hs |]. split; [rewrite Hs; lra | reflexivity].
Qed.

(** *** [np_sort] sorts *)

Lemma insert_perm (v : R) (l : list R) : Permutation (v :: l) (insert v l).
Proof.
  induction l as [| h t IH]; cbn [insert]; [reflexivity |].
  destruct (Rle_dec v h); [reflexivity |].
  rewrite perm_swap. now apply perm_skip.
Qed.

Lemma np_sort_perm (l : list R) : Permutation l (np_sort l).
Proof.
  induction l as [| h t IH]; cbn [np_sort]; [constructor |].
  rewrite <- insert_perm. now apply perm_skip.
Qed.

Lemma insert_hdrel (a v : R) (l : list R) :
  a <= v -> HdRel Rle a l -> HdRel Rle a (insert v l).
Proof.
  intros Hav Hl. destruct l as [| h t]; cbn [insert].
  - now constructor.
  - destruct (Rle_dec v h); constructor; [assumption |].
    now inversion Hl.
Qed.

Lemma insert_sorted (v : R) (l : list R) :
  Sorted Rle l -> Sorted Rle (insert v l).
Proof.
  induction 1 as [| h t Ht IH Hhd]; cbn [insert].
  - repeat constructor.
  - destruct (Rle_dec v h) as [Hle | Hgt].
    + constructor; [now constructor | now constructor].
    + constructor; [exact IH |].
      apply insert_hdrel; [lra | exact Hhd].
Qed.

Lemma np_sort_sorted (l : list R) : Sorted Rle (np_sort l).
Proof.
  induction l as [| h t IH]; cbn [np_sort]; [constructor |].
  now apply insert_sorted.
Qed.

Lemma np_sort_length (l : list R) : length (np_sort l) = length l.
Proof. symmetry. apply Permutation_length, np_sort_perm. Qed.

Example np_sort_three : np_sort [-70; -100; -90] = [-100; -90; -70].
Proof. cbn [np_sort]. repeat (cbn [insert]; Rdecide). reflexivity. Qed.

(** *** The two sequences of the CDF *)

Lemma cdf_some (strengths_data : field) :
  drop_nan (concat strengths_data) <> [] ->
  cdf strengths_data =
  let values := drop_nan (concat strengths_data) in
  let n := length values in
  Some (np_sort values,
        map (fun r => INR r / INR (if (1 <? n)%nat then (n - 1)%nat else 1%nat))
            (seq 0 n)).
Proof.
  intros Hvalid. unfold cdf.
  assert (Hnan : forallb isnan (concat strengths_data) = false).
  { apply not_true_is_false. intros H. apply Hvalid.
    now apply forallb_isnan_drop. }
  assert (E0 : (size strengths_data =? 0)%nat = false).
  { apply Nat.eqb_neq. rewrite size_concat.
    destruct (concat strengths_data); [contradiction | cbn; lia]. }
  assert (E1 : (length (drop_nan (concat strengths_data)) =? 0)%nat = false).
  { apply Nat.eqb_neq.
    destruct (drop_nan (concat strengths_data)); [contradiction | cbn; lia]. }
  rewrite E0, Hnan, E1. cbn [orb].
  rewrite np_sort_length. reflexivity.
Qed.

Lemma yvals_nth (n d r : nat) :
  (r < n)%nat ->
  nth r (map (fun r => INR r / INR d) (seq 0 n)) 0 = INR r / INR d.
Proof.
  intros Hr.
  rewrite (map_nth_in _ _ 0%nat) by (rewrite length_seq; exact Hr).
  rewrite seq_nth by exact Hr. reflexivity.
Qed.

(** C8: when the field has a valid value, the CDF is made of the valid
    values sorted ascending and of one probability per rank: rank [r] gets
    [r / (N - 1)] when [N > 1] and [0] when [N = 1].  The probabilities do
    not decrease along the ranks and, for [N > 1], the first is 0 and the
    last is 1. *)
Theorem empirical_cdf (strengths_data : field) :
  let values := drop_nan (concat strengths_data) in
  let N := length values in
  values <> [] ->
  exists sorted_data yvals : list R,
    cdf strengths_data = Some (sorted_data, yvals) /\
    Permutation values sorted_data /\
    Sorted Rle sorted_data /\
    length sorted_data = N /\
    length yvals = N /\
    (forall r : nat, (r < N)%nat ->
       nth r yvals 0 = if (1 <? N)%nat then INR r / INR (N - 1) else 0) /\
    (forall r s : nat, (r <= s)%nat -> (s < N)%nat ->
       nth r yvals 0 <= nth s yvals 0) /\
    ((1 < N)%nat -> nth 0 yvals 0 = 0 /\ nth (N - 1) yvals 0 = 1).
Proof.
  intros values N Hvalid.
  rewrite (cdf_some strengths_data Hvalid). cbv zeta.
  fold values. fold N.
  assert (HN : (0 < N)%nat).
  { unfold N. destruct values; [contradiction | cbn; lia]. }
  set (d := if (1 <? N)%nat then (N - 1)%nat else 1%nat).
  assert (Hd : 0 < INR d).
  { apply lt_0_INR. unfold d. destruct (1 <? N)%nat eqn:E; [| lia].
    apply Nat.ltb_lt in E. lia. }
  eexists. eexists. split; [reflexivity |].
  split; [apply np_sort_perm |].
  split; [apply np_sort_sorted |].
  split; [apply np_sort_length |].
  split; [now rewrite length_map, length_seq |].
  split; [| split].
  - intros r Hr. rewrite yvals_nth by exact Hr.
    unfold d. destruct (1 <? N)%nat eqn:E; [reflexivity |].
    apply Nat.ltb_ge in E. assert (r = 0%nat) by lia. subst r.
    cbn [INR]. lra.
  - intros r s Hrs Hs. rewrite !yvals_nth by lia.
    apply Rmult_le_compat_r.
    + left. now apply Rinv_0_lt_compat.
    + now apply le_INR.
  - intros H1. rewrite !yvals_nth by lia.
    assert (E : (1 <? N)%nat = true) by (apply Nat.ltb_lt; exact H1).
    unfold d in *. rewrite E in *. split.
    + cbn [INR]. lra.
    + field. lra.
Qed.

Lemma empirical_cdf_witness :
  exists sorted_data yvals : list R,
    cdf [[Some (-70); None]; [Some (-100); Some (-90)]]
      = Some (sorted_data, yvals) /\
    Permutation [-70; -100; -90] sorted_data /\
    Sorted Rle sorted_data /\
    length sorted_data = 3%nat /\
    length yvals = 3%nat /\
    (forall r : nat, (r < 3)%nat -> nth r yvals 0 = INR r / INR 2) /\
    (forall r s : nat, (r <= s)%nat -> (s < 3)%nat ->
       nth r yvals 0 <= nth s yvals 0) /\
    ((1 < 3)%nat -> nth 0 yvals 0 = 0 /\ nth 2 yvals 0 = 1).
Proof.
  apply (empirical_cdf [[Some (-70); None]; [Some (-100); Some (-90)]]).
  cbn. discriminate.
Defined.

(** * Further properties of the code *)

(** ** More on [signal_strength_model] *)

(** Bounds on a decimal logarithm from a comparison of powers. *)
Lemma log10_pow_lower (x : R) (n m : nat) :
  0 < x -> (/ 10) ^ m <= x ^ n -> - INR m <= INR n * log10 x.
Proof.
  intros Hx Hpow.
  assert (H10 : 0 < / 10) by lra.
  assert (Hm : 0 < (/ 10) ^ m) by (apply pow_lt; exact H10).
  assert (Hle : ln ((/ 10) ^ m) <= ln (x ^ n)).
  { destruct Hpow as [Hlt | Heq].
    - left. now apply ln_increasing.
    - right. now rewrite Heq. }
  rewrite !ln_pow in Hle by assumption.
  rewrite ln_Rinv in Hle by lra.
  pose proof ln10_pos as Hl.
  unfold log10.
  apply Rmult_le_reg_r with (ln 10); [exact Hl |].
  replace (INR n * (ln x / ln 10) * ln 10) with (INR n * ln x)
    by (field; lra).
  lra.
Qed.

Lemma log10_pow_upper (x : R) (n m : nat) :
  0 < x -> x ^ n <= (/ 10) ^ m -> INR n * log10 x <= - INR m.
Proof.
  intros Hx Hpow.
  assert (Hn : 0 < x ^ n) by (apply pow_lt; exact Hx).
  assert (Hle : ln (x ^ n) <= ln ((/ 10) ^ m)).
  { destruct Hpow as [Hlt | Heq].
    - left. now apply ln_increasing.
    - right. now rewrite Heq. }
  rewrite !ln_pow in Hle by lra.
  rewrite ln_Rinv in Hle by lra.
  pose proof ln10_pos as Hl.
  unfold log10.
  apply Rmult_le_reg_r with (ln 10); [exact Hl |].
  replace (INR n * (ln x / ln 10) * ln 10) with (INR n * ln x)
    by (field; lra).
  lra.
Qed.

(** [log10 0.15 >= -5/6], [log10 0.25 <= -3/5], [log10 0.056 <= -5/4]. *)
Lemma log10_015 : -5 <= 6 * log10 0.15.
Proof.
  replace 6 with (INR 6) by (cbn [INR]; lra). replace (-5) with (- INR 5) by (cbn [INR]; lra).
  apply log10_pow_lower; [lra |]. cbn [pow]. lra.
Qed.

Lemma log10_025 : 5 * log10 0.25 <= -3.
Proof.
  replace 5 with (INR 5) by (cbn [INR]; lra). replace (-3) with (- INR 3) by (cbn [INR]; lra).
  apply log10_pow_upper; [lra |]. cbn [pow]. lra.
Qed.

Lemma log10_0056 : 4 * log10 0.056 <= -5.
Proof.
  replace 4 with (INR 4) by (cbn [INR]; lra). replace (-5) with (- INR 5) by (cbn [INR]; lra).
  apply log10_pow_upper; [lra |]. cbn [pow]. lra.
Qed.

(** X1: the closed forms of the three other environments, for positive
    distance and frequency. *)
Theorem other_environment_formulas (d tx f g : R) :
  0 < d -> 0 < f ->
  signal_strength_model d tx f g "urban_macro" =
    Some ((tx + g)
          - (FSPL d f
             + Rmax 0 (15 + 0.05 * (f / 1000) * log10 (d + 1)
                       + 12 * log10 (d / 1000 + 0.001)))) /\
  signal_strength_model d tx f g "suburban" =
    Some ((tx + g)
          - (FSPL d f + Rmax 0 (10 + 8 * log10 (d / 1000 + 0.001)))) /\
  signal_strength_model d tx f g "rural_macro" =
    Some ((tx + g)
          - (FSPL d f + Rmax 0 (3 + 5 * log10 (d / 1000 + 0.001)))).
Proof.
  intros Hd Hf.
  rewrite !model_regular by assumption.
  rewrite additional_loss_urban_macro, additional_loss_suburban,
    additional_loss_rural_macro by assumption.
  repeat split; reflexivity.
Qed.

Lemma other_environment_formulas_witness :
  signal_strength_model 999 40 1000 17 "suburban" =
  Some ((40 + 17)
        - (FSPL 999 1000 + Rmax 0 (10 + 8 * log10 (999 / 1000 + 0.001)))).
Proof.
  apply (other_environment_formulas 999 40 1000 17); lra.
Defined.

(** X2: at positive frequency the received power strictly decreases with
    the distance, in every environment. *)
Theorem power_strictly_decreasing_in_distance (tx f g : R) (env : string)
    (d1 d2 : R) :
  0 < f -> 0 < d1 -> d1 < d2 ->
  exists p1 p2 : R,
    signal_strength_model d1 tx f g env = Some p1 /\
    signal_strength_model d2 tx f g env = Some p2 /\
    p2 < p1.
Proof.
  intros Hf Hd1 Hlt.
  assert (Hle : d1 <= d2) by lra.
  destruct (additional_loss_monotone env f d1 d2 Hf Hd1 Hle)
    as (a1 & a2 & E1 & E2 & Ha).
  rewrite !model_regular by lra.
  rewrite E1, E2. cbn [bind].
  do 2 eexists. split; [reflexivity |]. split; [reflexivity |].
  assert (HF : log10 d1 < log10 d2) by (apply log10_lt; lra).
  unfold FSPL. lra.
Qed.

Lemma power_strictly_decreasing_in_distance_witness :
  exists p1 p2 : R,
    signal_strength_model 10 40 2600 17 "rural_macro" = Some p1 /\
    signal_strength_model 11 40 2600 17 "rural_macro" = Some p2 /\
    p2 < p1.
Proof.
  apply (power_strictly_decreasing_in_distance 40 2600 17 "rural_macro" 10 11);
    lra.
Defined.

(** X3: at a fixed positive distance the received power strictly decreases
    with the frequency, in every environment. *)
Theorem power_strictly_decreasing_in_frequency (d tx g : R) (env : string)
    (f1 f2 : R) :
  0 < d -> 0 < f1 -> f1 < f2 ->
  exists p1 p2 : R,
    signal_strength_model d tx f1 g env = Some p1 /\
    signal_strength_model d tx f2 g env = Some p2 /\
    p2 < p1.
Proof.
  intros Hd Hf1 Hlt.
  destruct (additional_loss_shape env) as (A & B & C & HB & HC & Heq).
  rewrite !model_regular by lra.
  rewrite !Heq by lra. cbn [bind].
  do 2 eexists. split; [reflexivity |]. split; [reflexivity |].
  assert (HF : log10 f1 < log10 f2) by (apply log10_lt; lra).
  assert (HM : 0 < log10 (d + 1)) by (apply log10_pos; lra).
  assert (HP : B * (f1 / 1000) * log10 (d + 1)
               <= B * (f2 / 1000) * log10 (d + 1)).
  { apply Rmult_le_compat_r; [lra |].
    apply Rmult_le_compat_l; lra. }
  assert (HR : Rmax 0 (A + B * (f1 / 1000) * log10 (d + 1)
                       + C * log10 (d / 1000 + 0.001))
               <= Rmax 0 (A + B * (f2 / 1000) * log10 (d + 1)
                          + C * log10 (d / 1000 + 0.001))).
  { apply Rmax_0_mono. lra. }
  unfold FSPL. lra.
Qed.

Lemma power_strictly_decreasing_in_frequency_witness :
  exists p1 p2 : R,
    signal_strength_model 100 40 700 17 "urban_dense" = Some p1 /\
    signal_strength_model 100 40 3500 17 "urban_dense" = Some p2 /\
    p2 < p1.
Proof.
  apply (power_strictly_decreasing_in_frequency 100 40 17 "urban_dense"
           700 3500); lra.
Defined.

(** X4: the environment never improves on free space: for positive distance
    and frequency the result is at most EIRP minus FSPL. *)
Theorem free_space_upper_bound (d tx f g : R) (env : string) :
  0 < d -> 0 < f ->
  exists p : R,
    signal_strength_model d tx f g env = Some p /\
    p <= (tx + g) - FSPL d f.
Proof.
  intros Hd Hf.
  destruct (additional_loss_shape env) as (A & B & C & _ & _ & Heq).
  rewrite model_regular by assumption.
  rewrite Heq by assumption. cbn [bind].
  eexists. split; [reflexivity |].
  pose proof (Rmax_l 0 (A + B * (f / 1000) * log10 (d + 1)
                        + C * log10 (d / 1000 + 0.001))).
  lra.
Qed.

Lemma free_space_upper_bound_witness :
  exists p : R,
    signal_strength_model 500 40 2600 17 "urban_dense" = Some p /\
    p <= (40 + 17) - FSPL 500 2600.
Proof.
  apply (free_space_upper_bound 500 40 2600 17 "urban_dense"); lra.
Defined.

(** X5: raising the transmit power by [delta] raises the result by [delta]
    on every input, the two sentinel cases included. *)
Theorem transmit_power_shift (d tx f g delta : R) (env : string) :
  exists p : R,
    signal_strength_model d tx f g env = Some p /\
    signal_strength_model d (tx + delta) f g env = Some (p + delta).
Proof.
  unfold signal_strength_model.
  destruct (Rle_dec d 0) as [Hd | Hd].
  - eexists. split; [reflexivity |]. f_equal. lra.
  - destruct (Rle_dec f 0) as [Hf | Hf].
    + eexists. split; [reflexivity |]. f_equal. lra.
    + rewrite !np_log10_pos by lra. cbn [bind].
      destruct (additional_loss_shape env) as (A & B & C & _ & _ & Heq).
      rewrite Heq by lra. cbn [bind].
      eexists. split; [reflexivity |]. f_equal. lra.
Qed.

(** X6: past the two guards the gain enters through the EIRP only, so two
    settings with the same sum of power and gain give the same result; on
    the two guarded inputs the gain is ignored altogether. *)
Theorem gain_enters_through_eirp (d f tx g tx' g' : R) (env : string) :
  (0 < d -> 0 < f -> tx + g = tx' + g' ->
   signal_strength_model d tx f g env = signal_strength_model d tx' f g' env) /\
  (d <= 0 \/ f <= 0 ->
   signal_strength_model d tx f g env = signal_strength_model d tx f g' env).
Proof.
  split.
  - intros Hd Hf Heirp.
    rewrite !model_regular by assumption.
    rewrite Heirp. reflexivity.
  - intros Hguard. unfold signal_strength_model.
    destruct (Rle_dec d 0) as [Hd | Hd]; [reflexivity |].
    destruct (Rle_dec f 0) as [Hf | Hf]; [reflexivity | lra].
Qed.

Lemma gain_enters_through_eirp_witness :
  signal_strength_model 100 40 2600 17 "suburban" =
  signal_strength_model 100 50 2600 7 "suburban" /\
  signal_strength_model 0 40 2600 17 "suburban" =
  signal_strength_model 0 40 2600 7 "suburban".
Proof.
  split.
  - apply (gain_enters_through_eirp 100 2600 40 17 50 7 "suburban"); lra.
  - apply (gain_enters_through_eirp 0 2600 40 17 40 7 "suburban"). left. lra.
Defined.

(** The two lower links of the ordering of the clamped losses hold at every
    positive distance and frequency. *)
Lemma loss_order_lower_links (d f : R) :
  0 < d -> 0 < f ->
  Rmax 0 (3 + 5 * log10 (d / 1000 + 0.001))
    <= Rmax 0 (10 + 8 * log10 (d / 1000 + 0.001)) /\
  Rmax 0 (10 + 8 * log10 (d / 1000 + 0.001))
    <= Rmax 0 (15 + 0.05 * (f / 1000) * log10 (d + 1)
               + 12 * log10 (d / 1000 + 0.001)).
Proof.
  intros Hd Hf.
  assert (HM : 0 < log10 (d + 1)) by (apply log10_pos; lra).
  assert (HP : 0 <= (f / 1000) * log10 (d + 1)).
  { apply Rmult_le_pos; lra. }
  set (L := log10 (d / 1000 + 0.001)) in *.
  replace (0.05 * (f / 1000) * log10 (d + 1))
    with (0.05 * ((f / 1000) * log10 (d + 1))) by lra.
  set (P := (f / 1000) * log10 (d + 1)) in *.
  split.
  - apply Rmax_lub; [apply Rmax_l |].
    destruct (Rle_dec (3 + 5 * L) 0) as [Hneg | Hpos].
    + eapply Rle_trans; [exact Hneg | apply Rmax_l].
    + eapply Rle_trans; [| apply Rmax_r]. lra.
  - apply Rmax_lub; [apply Rmax_l |].
    destruct (Rle_dec (10 + 8 * L) 0) as [Hneg | Hpos].
    + eapply Rle_trans; [exact Hneg | apply Rmax_l].
    + eapply Rle_trans; [| apply Rmax_r]. lra.
Qed.

(** From 149 m on the upper link holds too. *)
Lemma loss_order_upper_link (d f : R) :
  149 <= d -> 0 < f ->
  Rmax 0 (15 + 0.05 * (f / 1000) * log10 (d + 1)
          + 12 * log10 (d / 1000 + 0.001))
    <= Rmax 0 (20 + 0.1 * (f / 1000) * log10 (d + 1)
               + 18 * log10 (d / 1000 + 0.001)).
Proof.
  intros Hd Hf.
  assert (HM : 0 < log10 (d + 1)) by (apply log10_pos; lra).
  assert (HP : 0 <= (f / 1000) * log10 (d + 1)).
  { apply Rmult_le_pos; lra. }
  assert (HL : log10 0.15 <= log10 (d / 1000 + 0.001))
    by (apply log10_le; lra).
  pose proof log10_015 as H15.
  set (L := log10 (d / 1000 + 0.001)) in *.
  replace (0.05 * (f / 1000) * log10 (d + 1))
    with (0.05 * ((f / 1000) * log10 (d + 1))) by lra.
  replace (0.1 * (f / 1000) * log10 (d + 1))
    with (0.1 * ((f / 1000) * log10 (d + 1))) by lra.
  set (P := (f / 1000) * log10 (d + 1)) in *.
  apply Rmax_0_mono. lra.
Qed.

(** X7: at every positive distance and frequency the clamped losses satisfy
    rural_macro <= suburban <= urban_macro, with no condition on their
    sign. *)
Theorem rural_suburban_macro_ordering (d f : R) :
  0 < d -> 0 < f ->
  exists rural suburban macro : R,
    additional_loss "rural_macro" d f (km_of d) = Some rural /\
    additional_loss "suburban" d f (km_of d) = Some suburban /\
    additional_loss "urban_macro" d f (km_of d) = Some macro /\
    rural <= suburban /\ suburban <= macro.
Proof.
  intros Hd Hf.
  rewrite additional_loss_rural_macro, additional_loss_suburban,
    additional_loss_urban_macro by assumption.
  do 3 eexists. do 3 (split; [reflexivity |]).
  now apply loss_order_lower_links.
Qed.

Lemma rural_suburban_macro_ordering_witness :
  exists rural suburban macro : R,
    additional_loss "rural_macro" 99 1000 (km_of 99) = Some rural /\
    additional_loss "suburban" 99 1000 (km_of 99) = Some suburban /\
    additional_loss "urban_macro" 99 1000 (km_of 99) = Some macro /\
    rural <= suburban /\ suburban <= macro.
Proof.
  apply (rural_suburban_macro_ordering 99 1000); lra.
Defined.

(** X8: from 149 m on, at every positive frequency, the four clamped losses
    are ordered rural_macro <= suburban <= urban_macro <= urban_dense. *)
Theorem full_loss_ordering_from_149m (d f : R) :
  149 <= d -> 0 < f ->
  exists rural suburban macro dense : R,
    additional_loss "rural_macro" d f (km_of d) = Some rural /\
    additional_loss "suburban" d f (km_of d) = Some suburban /\
    additional_loss "urban_macro" d f (km_of d) = Some macro /\
    additional_loss "urban_dense" d f (km_of d) = Some dense /\
    rural <= suburban /\ suburban <= macro /\ macro <= dense.
Proof.
  intros Hd Hf.
  rewrite additional_loss_rural_macro, additional_loss_suburban,
    additional_loss_urban_macro, additional_loss_urban_dense by lra.
  do 4 eexists. do 4 (split; [reflexivity |]).
  destruct (loss_order_lower_links d f) as [H1 H2]; [lra | assumption |].
  split; [exact H1 |]. split; [exact H2 |].
  now apply loss_order_upper_link.
Qed.

Lemma full_loss_ordering_from_149m_witness :
  exists rural suburban macro dense : R,
    additional_loss "rural_macro" 149 2600 (km_of 149) = Some rural /\
    additional_loss "suburban" 149 2600 (km_of 149) = Some suburban /\
    additional_loss "urban_macro" 149 2600 (km_of 149) = Some macro /\
    additional_loss "urban_dense" 149 2600 (km_of 149) = Some dense /\
    rural <= suburban /\ suburban <= macro /\ macro <= dense.
Proof.
  apply (full_loss_ordering_from_149m 149 2600); lra.
Defined.

(** X9: from 149 m on, with the transmitter fixed, the received power is
    ordered the other way round: urban_dense <= urban_macro <= suburban <=
    rural_macro. *)
Theorem power_ordering_from_149m (d tx f g : R) :
  149 <= d -> 0 < f ->
  exists dense macro suburban rural : R,
    signal_strength_model d tx f g "urban_dense" = Some dense /\
    signal_strength_model d tx f g "urban_macro" = Some macro /\
    signal_strength_model d tx f g "suburban" = Some suburban /\
    signal_strength_model d tx f g "rural_macro" = Some rural /\
    dense <= macro /\ macro <= suburban /\ suburban <= rural.
Proof.
  intros Hd Hf.
  rewrite !model_regular by lra.
  rewrite additional_loss_rural_macro, additional_loss_suburban,
    additional_loss_urban_macro, additional_loss_urban_dense by lra.
  cbn [bind].
  do 4 eexists. do 4 (split; [reflexivity |]).
  destruct (loss_order_lower_links d f) as [H1 H2]; [lra | assumption |].
  pose proof (loss_order_upper_link d f Hd Hf) as H3.
  lra.
Qed.

Lemma power_ordering_from_149m_witness :
  exists dense macro suburban rural : R,
    signal_strength_model 500 40 2600 17 "urban_dense" = Some dense /\
    signal_strength_model 500 40 2600 17 "urban_macro" = Some macro /\
    signal_strength_model 500 40 2600 17 "suburban" = Some suburban /\
    signal_strength_model 500 40 2600 17 "rural_macro" = Some rural /\
    dense <= macro /\ macro <= suburban /\ suburban <= rural.
Proof.
  apply (power_ordering_from_149m 500 40 2600 17); lra.
Defined.

(** X10: close to the transmitter the clamp removes the whole environment
    term: rural_macro is pure free space up to 249 m, suburban up to
    55 m. *)
Theorem short_range_is_free_space (d tx f g : R) :
  0 < d -> 0 < f ->
  (d <= 249 ->
   signal_strength_model d tx f g "rural_macro"
   = Some ((tx + g) - FSPL d f)) /\
  (d <= 55 ->
   signal_strength_model d tx f g "suburban"
   = Some ((tx + g) - FSPL d f)).
Proof.
  intros Hd Hf. split; intros Hnear.
  - rewrite model_regular by assumption.
    rewrite additional_loss_rural_macro by assumption. cbn [bind].
    assert (HL : log10 (d / 1000 + 0.001) <= log10 0.25)
      by (apply log10_le; lra).
    pose proof log10_025 as H25.
    rewrite Rmax_left by lra. f_equal. lra.
  - rewrite model_regular by assumption.
    rewrite additional_loss_suburban by assumption. cbn [bind].
    assert (HL : log10 (d / 1000 + 0.001) <= log10 0.056)
      by (apply log10_le; lra).
    pose proof log10_0056 as H56.
    rewrite Rmax_left by lra. f_equal. lra.
Qed.

Lemma short_range_is_free_space_witness :
  signal_strength_model 200 40 2600 17 "rural_macro"
  = Some ((40 + 17) - FSPL 200 2600) /\
  signal_strength_model 50 40 2600 17 "suburban"
  = Some ((40 + 17) - FSPL 50 2600).
Proof.
  split.
  - apply (short_range_is_free_space 200 40 2600 17); lra.
  - apply (short_range_is_free_space 50 40 2600 17); lra.
Defined.

(** ** More on [create_grid] *)

(** X13: in a grid that is returned, an axis whose lower bound is not below
    its upper bound is the lower bound alone, also when the bounds are given
    in the wrong order: the grid then has a single column (or row). *)
Theorem grid_degenerate_axis (np : numpy) (x_min x_max y_min y_max step : R)
    (xx yy : array2 R) :
  create_grid np x_min x_max y_min y_max step = inr (xx, yy) ->
  exists ny nx : nat,
    rectangular ny nx xx /\ rectangular ny nx yy /\
    (x_max <= x_min ->
     nx = 1%nat /\ forall i, (i < ny)%nat -> at2 xx i 0 = x_min) /\
    (y_max <= y_min ->
     ny = 1%nat /\ forall j, (j < nx)%nat -> at2 yy 0 j = y_min).
Proof.
  intros Hgrid.
  apply create_grid_inr in Hgrid as (Hs & x & y & Hx & Hy & Heq).
  set (x' := if Rge_dec x_min x_max then [x_min] else x) in *.
  set (y' := if Rge_dec y_min y_max then [y_min] else y) in *.
  assert (Exx : xx = fst (mesh_of x' y')) by (rewrite <- Heq; reflexivity).
  assert (Eyy : yy = snd (mesh_of x' y')) by (rewrite <- Heq; reflexivity).
  subst xx yy.
  exists (length y'), (length x').
  split; [apply meshgrid_rectangular |].
  split; [apply meshgrid_rectangular |].
  split.
  - intros Hle.
    assert (Ex : x' = [x_min]).
    { unfold x'. destruct (Rge_dec x_min x_max); [reflexivity | lra]. }
    split; [rewrite Ex; reflexivity |].
    intros i Hi.
    destruct (meshgrid_cell x' y' i 0) as [-> _];
      [exact Hi | rewrite Ex; cbn; lia |].
    rewrite Ex. reflexivity.
  - intros Hle.
    assert (Ey : y' = [y_min]).
    { unfold y'. destruct (Rge_dec y_min y_max); [reflexivity | lra]. }
    split; [rewrite Ey; reflexivity |].
    intros j Hj.
    destruct (meshgrid_cell x' y' 0 j) as [_ ->];
      [rewrite Ey; cbn; lia | exact Hj |].
    rewrite Ey. reflexivity.
Qed.

Lemma grid_degenerate_axis_witness :
  exists (xx yy : array2 R) (ny nx : nat),
    create_grid ideal 5 5 0 10 1 = inr (xx, yy) /\
    rectangular ny nx xx /\ rectangular ny nx yy /\
    nx = 1%nat /\ forall i, (i < ny)%nat -> at2 xx i 0 = 5.
Proof.
  destruct (ideal_create_grid 5 5 0 10 1) as (xx & yy & E); try lra.
  destruct (grid_degenerate_axis ideal 5 5 0 10 1 xx yy E)
    as (ny & nx & R1 & R2 & Hx & _).
  exists xx, yy, ny, nx.
  do 3 (split; [assumption |]).
  apply Hx. lra.
Defined.

(** X18: the area reported for a grid that [create_grid] returned.  With at
    least two columns and two rows it is the area spanned by the samples,
    [((nx - 1) * step) * ((ny - 1) * step)]; with a single column or a
    single row, and so whenever a range is degenerate, it is
    [step * step], whatever the other range is. *)
Theorem reported_area (np : numpy) (x_min x_max y_min y_max step : R)
    (xx yy : array2 R) :
  arange_sound np ->
  create_grid np x_min x_max y_min y_max step = inr (xx, yy) ->
  exists ny nx : nat,
    rectangular ny nx xx /\ rectangular ny nx yy /\
    ((1 < nx)%nat -> (1 < ny)%nat ->
     total_area_sqm xx yy step
       = (INR (nx - 1) * step) * (INR (ny - 1) * step)) /\
    (nx = 1%nat \/ ny = 1%nat -> total_area_sqm xx yy step = step * step) /\
    (x_max <= x_min \/ y_max <= y_min ->
     total_area_sqm xx yy step = step * step).
Proof.
  intros Hnp Hgrid.
  destruct (create_grid_cells np _ _ _ _ _ _ _ Hnp Hgrid)
    as (ny & nx & Hny & Hnx & R1 & R2 & Hcell & Dx & Dy).
  exists ny, nx.
  split; [exact R1 |]. split; [exact R2 |].
  assert (Hshape : shape xx = (ny, nx))
    by (apply rectangular_shape; assumption).
  assert (E0y : (0 <? ny)%nat = true) by (apply Nat.ltb_lt; lia).
  assert (E0x : (0 <? nx)%nat = true) by (apply Nat.ltb_lt; lia).
  assert (Hone : nx = 1%nat \/ ny = 1%nat ->
                 total_area_sqm xx yy step = step * step).
  { intros H1. unfold total_area_sqm. rewrite Hshape, E0y, E0x. cbn [andb].
    destruct H1 as [-> | ->]; cbn [Nat.ltb Nat.leb andb];
      [reflexivity | rewrite andb_false_r; reflexivity]. }
  split; [| split; [exact Hone |]].
  - intros Hx2 Hy2.
    unfold total_area_sqm. rewrite Hshape, E0y, E0x. cbn [andb].
    assert (E1x : (1 <? nx)%nat = true) by (apply Nat.ltb_lt; lia).
    assert (E1y : (1 <? ny)%nat = true) by (apply Nat.ltb_lt; lia).
    rewrite E1x, E1y. cbn [andb].
    destruct (Hcell 0%nat 1%nat) as [-> _]; [lia | lia |].
    destruct (Hcell 0%nat 0%nat) as [-> ->]; [lia | lia |].
    destruct (Hcell 1%nat 0%nat) as [_ ->]; [lia | lia |].
    cbn [INR]. ring.
  - intros [Hx | Hy]; apply Hone; [left; auto | right; auto].
Qed.

Lemma reported_area_witness :
  exists (xx yy : array2 R) (ny nx : nat),
    create_grid ideal 0 95 0 0 10 = inr (xx, yy) /\
    rectangular ny nx xx /\ rectangular ny nx yy /\
    total_area_sqm xx yy 10 = 10 * 10.
Proof.
  destruct (ideal_create_grid 0 95 0 0 10) as (xx & yy & E); try lra.
  destruct (reported_area ideal 0 95 0 0 10 xx yy ideal_sound E)
    as (ny & nx & R1 & R2 & _ & _ & Hd).
  exists xx, yy, ny, nx.
  do 3 (split; [assumption |]).
  apply Hd. right. lra.
Defined.

(** ** More on [simulate_signal_strength] and [run_simulation] *)

Lemma trunc_IZR (z : Z) : trunc (IZR z) = z.
Proof.
  unfold trunc. destruct (Rle_dec 0 (IZR z)).
  - apply ZfloorZ.
  - apply Zceil_eq. lra.
Qed.

(** An [int] sentinel is not changed by the conversion to the output
    type. *)
Lemma to_otype_sentinel (tx : pynum) (d f : R) (k : Z) :
  to_otype (returns_int tx d f) (Some (num_val tx - IZR k))
  = Some (num_val tx - IZR k).
Proof.
  destruct tx as [z | r]; [| reflexivity].
  unfold to_otype. destruct (returns_int (PyInt z) d f); [| reflexivity].
  cbn [option_map num_val]. rewrite <- minus_IZR, trunc_IZR. reflexivity.
Qed.

Lemma to_otype_is_value (b : bool) (c : cell) :
  isnan c = false -> isnan (to_otype b c) = false.
Proof. destruct c, b; cbn; auto. Qed.

(** X14: a grid without cells makes the evaluation fail with the
    [ValueError] of [np.vectorize]. *)
Theorem simulate_empty_grid (n m : nat) (xx yy : array2 R)
    (bs_x bs_y : R) (tx : pynum) (f g : R) (env : string) :
  rectangular n m xx -> rectangular n m yy ->
  (n * m = 0)%nat ->
  simulate_signal_strength (xx, yy) (bs_x, bs_y) tx f g env = inl ValueError.
Proof.
  intros Hxx Hyy Hnm. unfold simulate_signal_strength.
  assert (H1 : is_1x1 xx = false).
  { unfold is_1x1, shape. destruct Hxx as [Hlen Hrows].
    destruct xx as [| row rest]; [reflexivity |].
    cbn [length hd] in *. inversion Hrows; subst.
    apply andb_false_iff.
    destruct (length rest) as [| k] eqn:E.
    - right. apply Nat.eqb_neq. cbn in Hnm. lia.
    - left. reflexivity. }
  rewrite H1. cbn [andb].
  pose proof (rectangular_zip_with (euclid bs_x bs_y) n m xx yy Hxx Hyy) as HR.
  rewrite (rectangular_size n m _ HR), Hnm. reflexivity.
Qed.

Lemma simulate_empty_grid_witness :
  simulate_signal_strength ([[]; []], [[]; []]) (0, 0) (PyFloat 40) 2600 17
    "urban_dense" = inl ValueError.
Proof.
  apply (simulate_empty_grid 2 0 [[]; []] [[]; []] 0 0 (PyFloat 40) 2600 17
           "urban_dense").
  - split; [reflexivity | repeat constructor].
  - split; [reflexivity | repeat constructor].
  - reflexivity.
Defined.

Lemma euclid_at_station (bs_x bs_y : R) : euclid bs_x bs_y bs_x bs_y = 0.
Proof.
  unfold euclid.
  replace ((bs_x - bs_x) ^ 2 + (bs_y - bs_y) ^ 2) with 0 by (cbn [pow]; lra).
  apply sqrt_0.
Qed.

Lemma euclid_on_axis (x : R) : 0 <= x -> euclid 0 0 x 0 = x.
Proof.
  intros Hx. unfold euclid.
  replace ((x - 0) ^ 2 + (0 - 0) ^ 2) with (x * x) by (cbn [pow]; lra).
  now apply sqrt_square.
Qed.

(** X15: a grid point that coincides with the base station gets the
    distance sentinel [transmit_power - 200], not a high power, whether the
    power is an [int] or a float. *)
Theorem station_cell_is_sentinel (n m : nat) (xx yy : array2 R)
    (bs_x bs_y : R) (tx : pynum) (f g : R) (env : string) (i j : nat) :
  rectangular n m xx -> rectangular n m yy ->
  (i < n)%nat -> (j < m)%nat ->
  at2 xx i j = bs_x -> at2 yy i j = bs_y ->
  exists strengths : field,
    simulate_signal_strength (xx, yy) (bs_x, bs_y) tx f g env
      = inr strengths /\
    nth j (nth i strengths []) None = Some (num_val tx - 200).
Proof.
  intros Hxx Hyy Hi Hj Hx Hy.
  destruct (simulate_cells n m xx yy bs_x bs_y tx f g env)
    as (strengths & E & _ & Hcell); try assumption; try lia.
  exists strengths. split; [exact E |].
  rewrite Hcell by assumption.
  rewrite Hx, Hy, euclid_at_station.
  unfold signal_strength_model.
  destruct (Rle_dec 0 0); [| lra].
  apply (to_otype_sentinel tx _ f 200).
Qed.

Lemma station_cell_is_sentinel_witness :
  exists strengths : field,
    simulate_signal_strength ([[0; 10]], [[0; 0]]) (0, 0) (PyInt 40) 2600 17
      "urban_dense" = inr strengths /\
    nth 0 (nth 0 strengths []) None = Some (40 - 200).
Proof.
  apply (station_cell_is_sentinel 1 2 [[0; 10]] [[0; 0]] 0 0 (PyInt 40)
           2600 17 "urban_dense" 0 0).
  - split; [reflexivity | repeat constructor].
  - split; [reflexivity | repeat constructor].
  - lia.
  - lia.
  - reflexivity.
  - reflexivity.
Defined.

(** X16: in a field evaluated with a float power, at positive frequency, of
    two cells at different positive distances from the base station the
    nearer one has strictly more power. *)
Theorem field_decreases_with_distance (n m : nat) (xx yy : array2 R)
    (bs_x bs_y tx f g : R) (env : string) (i j k l : nat) :
  rectangular n m xx -> rectangular n m yy ->
  (i < n)%nat -> (j < m)%nat -> (k < n)%nat -> (l < m)%nat ->
  0 < f ->
  0 < euclid bs_x bs_y (at2 xx i j) (at2 yy i j) ->
  euclid bs_x bs_y (at2 xx i j) (at2 yy i j)
    < euclid bs_x bs_y (at2 xx k l) (at2 yy k l) ->
  exists (strengths : field) (near far : R),
    simulate_signal_strength (xx, yy) (bs_x, bs_y) (PyFloat tx) f g env
      = inr strengths /\
    nth j (nth i strengths []) None = Some near /\
    nth l (nth k strengths []) None = Some far /\
    far < near.
Proof.
  intros Hxx Hyy Hi Hj Hk Hl Hf Hpos Hlt.
  destruct (simulate_cells n m xx yy bs_x bs_y (PyFloat tx) f g env)
    as (strengths & E & _ & Hcell); try assumption; try lia.
  cbn [returns_int to_otype num_val] in Hcell.
  set (d1 := euclid bs_x bs_y (at2 xx i j) (at2 yy i j)) in *.
  set (d2 := euclid bs_x bs_y (at2 xx k l) (at2 yy k l)) in *.
  assert (Hle : d1 <= d2) by lra.
  destruct (additional_loss_monotone env f d1 d2 Hf Hpos Hle)
    as (a1 & a2 & E1 & E2 & Ha).
  exists strengths.
  rewrite !Hcell by assumption. fold d1. fold d2.
  rewrite !model_regular by lra.
  rewrite E1, E2. cbn [bind].
  do 2 eexists. split; [exact E |].
  split; [reflexivity |]. split; [reflexivity |].
  assert (HF : log10 d1 < log10 d2) by (apply log10_lt; lra).
  unfold FSPL. lra.
Qed.

Lemma field_decreases_with_distance_witness :
  exists (strengths : field) (near far : R),
    simulate_signal_strength ([[0; 1; 4]], [[0; 0; 0]]) (0, 0) (PyFloat 40)
      2600 17 "suburban" = inr strengths /\
    nth 1 (nth 0 strengths []) None = Some near /\
    nth 2 (nth 0 strengths []) None = Some far /\
    far < near.
Proof.
  assert (E1 : euclid 0 0 1 0 = 1) by (apply euclid_on_axis; lra).
  assert (E4 : euclid 0 0 4 0 = 4) by (apply euclid_on_axis; lra).
  apply (field_decreases_with_distance 1 3 [[0; 1; 4]] [[0; 0; 0]] 0 0 40
           2600 17 "suburban" 0 1 0 2).
  - split; [reflexivity | repeat constructor].
  - split; [reflexivity | repeat constructor].
  - lia.
  - lia.
  - lia.
  - lia.
  - lra.
  - change (0 < euclid 0 0 1 0). rewrite E1. lra.
  - change (euclid 0 0 1 0 < euclid 0 0 4 0). rewrite E1, E4. lra.
Defined.

(** X25: the field evaluated on a grid of one non-empty shape has the shape
    of the grid and holds no [nan].  Its cell [(i, j)] is the model at the
    Euclidean distance from the base station to the point
    [(xx[i][j], yy[i][j])], converted to the output type that the first
    cell fixes: it is the model's value itself when the power is a float,
    and also when the first cell is off the station at positive
    frequency. *)
Theorem evaluated_field (n m : nat) (xx yy : array2 R)
    (bs_x bs_y : R) (tx : pynum) (f g : R) (env : string) :
  (0 < n)%nat -> (0 < m)%nat ->
  rectangular n m xx -> rectangular n m yy ->
  exists strengths : field,
    simulate_signal_strength (xx, yy) (bs_x, bs_y) tx f g env
      = inr strengths /\
    rectangular n m strengths /\
    shape strengths = shape xx /\
    (forall i j, (i < n)%nat -> (j < m)%nat ->
       nth j (nth i strengths []) None =
       to_otype
         (returns_int tx (euclid bs_x bs_y (at2 xx 0 0) (at2 yy 0 0)) f)
         (signal_strength_model (euclid bs_x bs_y (at2 xx i j) (at2 yy i j))
            (num_val tx) f g env)) /\
    ((exists r, tx = PyFloat r) \/
     (0 < euclid bs_x bs_y (at2 xx 0 0) (at2 yy 0 0) /\ 0 < f) ->
     forall i j, (i < n)%nat -> (j < m)%nat ->
       nth j (nth i strengths []) None =
       signal_strength_model (euclid bs_x bs_y (at2 xx i j) (at2 yy i j))
         (num_val tx) f g env) /\
    (forall i j, (i < n)%nat -> (j < m)%nat ->
       isnan (nth j (nth i strengths []) None) = false).
Proof.
  intros Hn Hm Hxx Hyy.
  destruct (simulate_cells n m xx yy bs_x bs_y tx f g env Hn Hm Hxx Hyy)
    as (strengths & E & HR & Hcell).
  exists strengths.
  split; [exact E |]. split; [exact HR |].
  split.
  { rewrite (rectangular_shape n m xx Hn Hxx).
    now apply rectangular_shape. }
  split; [exact Hcell |].
  split.
  - intros Hfloat i j Hi Hj. rewrite Hcell by assumption.
    assert (Hb : returns_int tx
                   (euclid bs_x bs_y (at2 xx 0 0) (at2 yy 0 0)) f = false).
    { destruct Hfloat as [[r ->] | [Hd Hf]]; [reflexivity |].
      unfold returns_int. destruct tx; [| reflexivity].
      destruct (Rle_dec _ 0); [lra |].
      destruct (Rle_dec f 0); [lra | reflexivity]. }
    rewrite Hb. reflexivity.
  - intros i j Hi Hj. rewrite Hcell by assumption.
    apply to_otype_is_value.
    destruct (signal_strength_model_total
                (euclid bs_x bs_y (at2 xx i j) (at2 yy i j))
                (num_val tx) f g env) as [v ->].
    reflexivity.
Qed.

Lemma evaluated_field_witness :
  exists strengths : field,
    simulate_signal_strength ([[0; 10]; [0; 10]], [[0; 0]; [10; 10]]) (0, 0)
      (PyFloat 40) 2600 17 "urban_dense" = inr strengths /\
    rectangular 2 2 strengths /\
    (forall i j, (i < 2)%nat -> (j < 2)%nat ->
       nth j (nth i strengths []) None =
       signal_strength_model
         (euclid 0 0 (at2 [[0; 10]; [0; 10]] i j)
            (at2 [[0; 0]; [10; 10]] i j))
         40 2600 17 "urban_dense") /\
    (forall i j, (i < 2)%nat -> (j < 2)%nat ->
       isnan (nth j (nth i strengths []) None) = false).
Proof.
  destruct (evaluated_field 2 2 [[0; 10]; [0; 10]] [[0; 0]; [10; 10]] 0 0
              (PyFloat 40) 2600 17 "urban_dense")
    as (strengths & E & HR & _ & _ & Hfloat & Hnan).
  - lia.
  - lia.
  - split; [reflexivity | repeat constructor].
  - split; [reflexivity | repeat constructor].
  - exists strengths.
    split; [exact E |]. split; [exact HR |].
    split; [| exact Hnan].
    apply Hfloat. left. exists 40. reflexivity.
Defined.

Lemma log10_1000 : log10 1000 = 3.
Proof.
  unfold log10. replace 1000 with (10 * (10 * 10)) by lra.
  rewrite !ln_mult by lra. field. pose proof ln10_pos. lra.
Qed.

(** C7, where the code departs from it.  The grid has the two points
    [(0, 0)] and [(10, 0)], the base station is at [(0, 0)] and the power is
    the Python [int] 40.  The first cell returns the [int] sentinel
    [40 - 200], which makes [np.vectorize] build an [int64] field: the
    second cell holds 4, while the model at its distance of 10 m gives
    4.55. *)
Theorem int_power_truncates_field :
  simulate_signal_strength ([[0; 10]], [[0; 0]]) (0, 0) (PyInt 40) 1000 17
    "suburban" = inr [[Some (-160); Some 4]] /\
  signal_strength_model (euclid 0 0 (at2 [[0; 10]] 0 1) (at2 [[0; 0]] 0 1))
    40 1000 17 "suburban" = Some 4.55.
Proof.
  assert (E0 : euclid 0 0 0 0 = 0) by apply euclid_at_station.
  assert (E10 : euclid 0 0 10 0 = 10) by (apply euclid_on_axis; lra).
  assert (M0 : signal_strength_model 0 40 1000 17 "suburban"
               = Some (40 - 200)).
  { unfold signal_strength_model.
    destruct (Rle_dec 0 0); [reflexivity | lra]. }
  assert (M10 : signal_strength_model 10 40 1000 17 "suburban" = Some 4.55).
  { rewrite model_regular by lra.
    rewrite additional_loss_suburban by lra. cbn [bind].
    assert (HL : log10 (10 / 1000 + 0.001) <= log10 0.056)
      by (apply log10_le; lra).
    pose proof log10_0056 as H56.
    rewrite Rmax_left by lra.
    unfold FSPL. rewrite log10_10, log10_1000. f_equal. lra. }
  split.
  - unfold simulate_signal_strength.
    cbn [is_1x1 shape length hd Nat.eqb andb zip_with size concat app].
    cbn [hd map num_val].
    rewrite E0, E10, M0, M10.
    unfold returns_int. destruct (Rle_dec 0 0); [| lra].
    cbn [to_otype option_map].
    assert (T1 : trunc (40 - 200) = (-160)%Z).
    { replace (40 - 200) with (IZR (-160)) by lra. apply trunc_IZR. }
    assert (T2 : trunc 4.55 = 4%Z).
    { unfold trunc. destruct (Rle_dec 0 4.55); [| lra].
      apply Zfloor_eq. lra. }
    rewrite T1, T2. reflexivity.
  - change (at2 [[0; 10]] 0 1) with 10. change (at2 [[0; 0]] 0 1) with 0.
    rewrite E10. exact M10.
Qed.




(** ** More on the statistics *)

Lemma fold_left_Rmax_spec (t : list R) (v : R) :
  In (fold_left Rmax t v) (v :: t) /\
  forall x, In x (v :: t) -> x <= fold_left Rmax t v.
Proof.
  revert v. induction t as [| h t IH]; intros v; cbn [fold_left].
  - split; [left; reflexivity |].
    intros x [<- | []]. lra.
  - destruct (IH (Rmax v h)) as [Hin Hub]. split.
    + destruct Hin as [Heq | Hin].
      * rewrite <- Heq. unfold Rmax. destruct (Rle_dec v h).
        -- right. left. reflexivity.
        -- left. reflexivity.
      * right. right. exact Hin.
    + intros x [<- | [<- | Hx]].
      * eapply Rle_trans; [apply Rmax_l | apply Hub; left; reflexivity].
      * eapply Rle_trans; [apply Rmax_r | apply Hub; left; reflexivity].
      * apply Hub. right. exact Hx.
Qed.

Lemma fold_left_Rmin_spec (t : list R) (v : R) :
  In (fold_left Rmin t v) (v :: t) /\
  forall x, In x (v :: t) -> fold_left Rmin t v <= x.
Proof.
  revert v. induction t as [| h t IH]; intros v; cbn [fold_left].
  - split; [left; reflexivity |].
    intros x [<- | []]. lra.
  - destruct (IH (Rmin v h)) as [Hin Hlb]. split.
    + destruct Hin as [Heq | Hin].
      * rewrite <- Heq. unfold Rmin. destruct (Rle_dec v h).
        -- left. reflexivity.
        -- right. left. reflexivity.
      * right. right. exact Hin.
    + intros x [<- | [<- | Hx]].
      * eapply Rle_trans; [apply Hlb; left; reflexivity | apply Rmin_l].
      * eapply Rle_trans; [apply Hlb; left; reflexivity | apply Rmin_r].
      * apply Hlb. right. exact Hx.
Qed.

Lemma sum_between (l : list R) (lo hi : R) :
  (forall x, In x l -> lo <= x <= hi) ->
  INR (length l) * lo <= fold_right Rplus 0 l <= INR (length l) * hi.
Proof.
  induction l as [| h t IH]; intros Hb.
  - cbn. lra.
  - cbn [fold_right length]. rewrite S_INR.
    assert (Hh : lo <= h <= hi) by (apply Hb; left; reflexivity).
    assert (Ht : forall x, In x t -> lo <= x <= hi)
      by (intros x Hx; apply Hb; right; exact Hx).
    specialize (IH Ht). lra.
Qed.

(** X19: the three indicators of the report.  A field with a valid value
    gets a maximum and a minimum that are cells of the field and bound every
    valid cell, and a mean between them; [nan] cells play no role.  A field
    without a valid value gets none. *)
Theorem report_extrema_spec (strengths_data : field) :
  let values := drop_nan (concat strengths_data) in
  (values = [] -> report_extrema strengths_data = None) /\
  (values <> [] ->
   exists max_rsrp min_rsrp avg_rsrp : R,
     report_extrema strengths_data
       = Some (Some max_rsrp, Some min_rsrp, Some avg_rsrp) /\
     In max_rsrp values /\ In min_rsrp values /\
     (forall v, In v values -> min_rsrp <= v <= max_rsrp) /\
     min_rsrp <= avg_rsrp <= max_rsrp).
Proof.
  cbv zeta. split.
  - intros Hnone. unfold report_extrema.
    apply forallb_isnan_drop in Hnone. rewrite Hnone.
    rewrite orb_true_r. reflexivity.
  - intros Hvalid. unfold report_extrema.
    assert (Hnan : forallb isnan (concat strengths_data) = false).
    { apply not_true_is_false. intros H. apply Hvalid.
      now apply forallb_isnan_drop. }
    assert (E0 : (size strengths_data =? 0)%nat = false).
    { apply Nat.eqb_neq. rewrite size_concat.
      destruct (concat strengths_data); [contradiction | cbn; lia]. }
    rewrite E0, Hnan. cbn [orb].
    unfold np_nanmax, np_nanmin, np_nanmean.
    destruct (drop_nan (concat strengths_data)) as [| v t]; [contradiction |].
    destruct (fold_left_Rmax_spec t v) as [Hmax_in Hmax].
    destruct (fold_left_Rmin_spec t v) as [Hmin_in Hmin].
    do 3 eexists. split; [reflexivity |].
    split; [exact Hmax_in |]. split; [exact Hmin_in |].
    split; [intros x Hx; split; [now apply Hmin | now apply Hmax] |].
    assert (Hb : forall x, In x (v :: t) ->
                   fold_left Rmin t v <= x <= fold_left Rmax t v)
      by (intros x Hx; split; [now apply Hmin | now apply Hmax]).
    pose proof (sum_between (v :: t) _ _ Hb) as [Hlo Hhi].
    assert (Hn : 0 < INR (length (v :: t))) by (apply lt_0_INR; cbn; lia).
    set (n := INR (length (v :: t))) in *.
    set (s := fold_right Rplus 0 (v :: t)) in *.
    split.
    + apply Rmult_le_reg_r with n; [exact Hn |].
      replace (s / n * n) with s by (field; lra). lra.
    + apply Rmult_le_reg_r with n; [exact Hn |].
      replace (s / n * n) with s by (field; lra). lra.
Qed.

Lemma report_extrema_spec_witness :
  exists max_rsrp min_rsrp avg_rsrp : R,
    report_extrema [[Some (-70); None]; [Some (-100); Some (-90)]]
      = Some (Some max_rsrp, Some min_rsrp, Some avg_rsrp) /\
    In max_rsrp [-70; -100; -90] /\ In min_rsrp [-70; -100; -90] /\
    (forall v, In v [-70; -100; -90] -> min_rsrp <= v <= max_rsrp) /\
    min_rsrp <= avg_rsrp <= max_rsrp.
Proof.
  apply (report_extrema_spec [[Some (-70); None]; [Some (-100); Some (-90)]]).
  cbn. discriminate.
Defined.

Lemma count_where_le (p : R -> bool) (data : list cell) :
  (count_where p data <= length data)%nat.
Proof. unfold count_where. apply filter_length_le. Qed.

(** X20: in a report every tier count is at most the number of cells and
    every percentage lies between 0 and 100; there are five rows. *)
Theorem report_rows_bounded (strengths_data : field) :
  drop_nan (concat strengths_data) <> [] ->
  exists rep : report,
    generate_analysis_report strengths_data = Some rep /\
    length (rows rep) = 5%nat /\
    Forall (fun row =>
              (fst row <= total_points rep)%nat /\ 0 <= snd row <= 100)
           (rows rep).
Proof.
  intros Hvalid.
  rewrite (generate_analysis_report_some strengths_data Hvalid).
  eexists. split; [reflexivity |].
  cbn [rows total_points]. split; [reflexivity |].
  assert (Hsz : (0 < size strengths_data)%nat).
  { rewrite size_concat.
    destruct (concat strengths_data); [contradiction | cbn; lia]. }
  assert (Hn : 0 < INR (size strengths_data)) by (apply lt_0_INR; lia).
  assert (Hrow : forall c : nat, (c <= size strengths_data)%nat ->
            (c <= size strengths_data)%nat /\
            0 <= INR c / INR (size strengths_data) * 100 <= 100).
  { intros c Hc. split; [exact Hc |].
    assert (H0 : 0 <= INR c) by apply pos_INR.
    assert (H1 : INR c <= INR (size strengths_data)) by (apply le_INR; exact Hc).
    set (n := INR (size strengths_data)) in *.
    assert (Hq : 0 <= INR c / n <= 1).
    { split.
      - apply Rmult_le_reg_r with n; [exact Hn |].
        replace (INR c / n * n) with (INR c) by (field; lra). lra.
      - apply Rmult_le_reg_r with n; [exact Hn |].
        replace (INR c / n * n) with (INR c) by (field; lra). lra. }
    lra. }
  cbn [map].
  repeat (apply Forall_cons; [cbn [fst snd]; apply Hrow; rewrite size_concat;
                              apply count_where_le |]).
  apply Forall_nil.
Qed.

Lemma report_rows_bounded_witness :
  exists rep : report,
    generate_analysis_report [[None; Some (-70)]] = Some rep /\
    length (rows rep) = 5%nat /\
    Forall (fun row =>
              (fst row <= total_points rep)%nat /\ 0 <= snd row <= 100)
           (rows rep).
Proof.
  apply (report_rows_bounded [[None; Some (-70)]]).
  cbn. discriminate.
Defined.

(** *** The CDF plot *)

Lemma sorted_hd_last (l : list R) :
  Sorted Rle l ->
  forall x, In x l -> hd 0 l <= x <= last l 0.
Proof.
  intros Hs. apply Sorted_StronglySorted in Hs;
    [| intros a b c; apply Rle_trans].
  induction Hs as [| h t Hst IH Hall]; intros x Hx; [contradiction |].
  rewrite Forall_forall in Hall.
  cbn [hd]. destruct t as [| h' t'].
  - cbn [last]. destruct Hx as [<- | []]. lra.
  - change (last (h :: h' :: t') 0) with (last (h' :: t') 0).
    assert (Hlast : h' <= last (h' :: t') 0)
      by (apply IH; left; reflexivity).
    assert (Hh : h <= h') by (apply Hall; left; reflexivity).
    destruct Hx as [<- | Hx].
    + lra.
    + split; [apply Hall, Hx | apply IH, Hx].
Qed.

Lemma hd_in (l : list R) : l <> [] -> In (hd 0 l) l.
Proof. destruct l; [contradiction | intros _; left; reflexivity]. Qed.

Lemma last_in (l : list R) : l <> [] -> In (last l 0) l.
Proof.
  induction l as [| h t IH]; [contradiction |]. intros _.
  destruct t as [| h' t']; [left; reflexivity |].
  right. apply IH. discriminate.
Qed.

Lemma filter_length_pos {A : Type} (p : A -> bool) (l : list A) (x : A) :
  In x l -> p x = true -> (0 < length (filter p l))%nat.
Proof.
  intros Hin Hp.
  assert (Hf : In x (filter p l)) by (apply filter_In; auto).
  destruct (filter p l); [contradiction | cbn; lia].
Qed.

Lemma filter_length_lt {A : Type} (p : A -> bool) (l : list A) (x : A) :
  In x l -> p x = false -> (length (filter p l) < length l)%nat.
Proof.
  induction l as [| h t IH]; [contradiction |].
  intros [<- | Hin] Hp; cbn [filter length].
  - rewrite Hp. pose proof (filter_length_le p t). lia.
  - specialize (IH Hin Hp). destruct (p h); cbn [length]; lia.
Qed.

Lemma np_sort_nonempty (l : list R) : l <> [] -> np_sort l <> [].
Proof.
  intros Hl Hs. apply Hl.
  apply length_zero_iff_nil. rewrite <- np_sort_length, Hs. reflexivity.
Qed.

Lemma plot_cdf_results_some (strengths_data : field) :
  drop_nan (concat strengths_data) <> [] ->
  exists yvals : list R,
    plot_cdf_results strengths_data =
    Some {| xs := np_sort (drop_nan (concat strengths_data));
            ys := yvals;
            marks := cdf_marks (np_sort (drop_nan (concat strengths_data)));
            xlim := cdf_xlim (np_sort (drop_nan (concat strengths_data))) |}.
Proof.
  intros Hvalid. unfold plot_cdf_results.
  rewrite (cdf_some strengths_data Hvalid). cbv zeta.
  eexists. reflexivity.
Qed.

(** X21: a mark of the CDF plot belongs to a threshold strictly between the
    smallest and the largest valid value; its probability is the share of
    valid values at or below the threshold, and it is strictly between 0
    and 1. *)
Theorem cdf_marks_spec (strengths_data : field) :
  drop_nan (concat strengths_data) <> [] ->
  exists plot : cdf_plot,
    plot_cdf_results strengths_data = Some plot /\
    Permutation (drop_nan (concat strengths_data)) (xs plot) /\
    Forall (fun mark =>
              In (fst mark) rsrp_thresholds /\
              hd 0 (xs plot) < fst mark < last (xs plot) 0 /\
              snd mark =
                INR (length (filter (fun v => Rleb v (fst mark)) (xs plot)))
                / INR (length (xs plot)) /\
              0 < snd mark < 1)
           (marks plot).
Proof.
  intros Hvalid.
  destruct (plot_cdf_results_some strengths_data Hvalid) as [yvals ->].
  eexists. split; [reflexivity |]. cbn [xs marks].
  split; [apply np_sort_perm |].
  set (sorted_data := np_sort (drop_nan (concat strengths_data))).
  assert (Hne : sorted_data <> []) by (apply np_sort_nonempty; exact Hvalid).
  assert (HN : 0 < INR (length sorted_data)).
  { apply lt_0_INR. destruct sorted_data; [contradiction | cbn; lia]. }
  unfold cdf_marks. rewrite Forall_map, Forall_forall.
  intros threshold Hin. apply filter_In in Hin as [Hin Hinside].
  apply andb_true_iff in Hinside as [Hlo Hhi].
  unfold Rltb in Hlo, Hhi.
  destruct (Rlt_dec (hd 0 sorted_data) threshold) as [Hlo' |]; [| discriminate].
  destruct (Rlt_dec threshold (last sorted_data 0)) as [Hhi' |]; [| discriminate].
  cbn [fst snd].
  split; [exact Hin |]. split; [split; assumption |].
  split; [reflexivity |].
  assert (Hpos : (0 < length (filter (fun v => Rleb v threshold) sorted_data))%nat).
  { apply (filter_length_pos _ _ (hd 0 sorted_data)); [now apply hd_in |].
    unfold Rleb. destruct (Rle_dec (hd 0 sorted_data) threshold);
      [reflexivity | lra]. }
  assert (Hlt : (length (filter (fun v => Rleb v threshold) sorted_data)
                 < length sorted_data)%nat).
  { apply (filter_length_lt _ _ (last sorted_data 0)); [now apply last_in |].
    unfold Rleb. destruct (Rle_dec (last sorted_data 0) threshold);
      [lra | reflexivity]. }
  apply lt_INR in Hpos, Hlt. cbn [INR] in Hpos.
  set (c := INR (length (filter (fun v => Rleb v threshold) sorted_data))) in *.
  set (n := INR (length sorted_data)) in *.
  split.
  - apply Rmult_lt_reg_r with n; [exact HN |].
    replace (c / n * n) with c by (field; lra). lra.
  - apply Rmult_lt_reg_r with n; [exact HN |].
    replace (c / n * n) with c by (field; lra). lra.
Qed.

Lemma cdf_marks_spec_witness :
  exists plot : cdf_plot,
    plot_cdf_results [[Some (-70); None]; [Some (-100); Some (-90)]]
      = Some plot /\
    Permutation [-70; -100; -90] (xs plot) /\
    Forall (fun mark =>
              In (fst mark) rsrp_thresholds /\
              hd 0 (xs plot) < fst mark < last (xs plot) 0 /\
              snd mark =
                INR (length (filter (fun v => Rleb v (fst mark)) (xs plot)))
                / INR (length (xs plot)) /\
              0 < snd mark < 1)
           (marks plot).
Proof.
  apply (cdf_marks_spec [[Some (-70); None]; [Some (-100); Some (-90)]]).
  cbn. discriminate.
Defined.

(** X22: the limits of the x axis of the CDF plot always enclose a
    non-empty interval, and every valid value lies strictly inside it, also
    when all the values are equal. *)
Theorem cdf_xlim_encloses_data (strengths_data : field) :
  drop_nan (concat strengths_data) <> [] ->
  exists plot : cdf_plot,
    plot_cdf_results strengths_data = Some plot /\
    fst (xlim plot) < snd (xlim plot) /\
    forall v, In v (drop_nan (concat strengths_data)) ->
      fst (xlim plot) < v < snd (xlim plot).
Proof.
  intros Hvalid.
  destruct (plot_cdf_results_some strengths_data Hvalid) as [yvals ->].
  eexists. split; [reflexivity |]. cbn [xlim].
  set (sorted_data := np_sort (drop_nan (concat strengths_data))).
  assert (Hne : sorted_data <> []) by (apply np_sort_nonempty; exact Hvalid).
  pose proof (sorted_hd_last sorted_data (np_sort_sorted _)) as Hb.
  assert (Hminmax : hd 0 sorted_data <= last sorted_data 0).
  { apply Hb. now apply hd_in. }
  unfold cdf_xlim. cbn [fst snd].
  set (lo := hd 0 sorted_data) in *. set (hi := last sorted_data 0) in *.
  assert (Hpad : 0 < (if Rgt_dec (hi - lo) 0 then (hi - lo) * 0.05 else 1)).
  { destruct (Rgt_dec (hi - lo) 0); lra. }
  set (x_pad := if Rgt_dec (hi - lo) 0 then (hi - lo) * 0.05 else 1) in *.
  split; [lra |].
  intros v Hv.
  assert (Hin : In v sorted_data).
  { eapply Permutation_in; [apply np_sort_perm | exact Hv]. }
  specialize (Hb v Hin). lra.
Qed.

Lemma cdf_xlim_encloses_data_witness :
  exists plot : cdf_plot,
    plot_cdf_results [[Some (-90); Some (-90)]] = Some plot /\
    fst (xlim plot) < snd (xlim plot) /\
    forall v, In v [-90; -90] -> fst (xlim plot) < v < snd (xlim plot).
Proof.
  apply (cdf_xlim_encloses_data [[Some (-90); Some (-90)]]).
  cbn. discriminate.
Defined.

(** *** The coverage plot *)

Lemma nan_extrema_some (data : list cell) :
  drop_nan data <> [] ->
  exists s_min s_max : R,
    np_nanmin data = Some s_min /\ np_nanmax data = Some s_max /\
    s_min <= s_max.
Proof.
  intros Hvalid. unfold np_nanmin, np_nanmax.
  destruct (drop_nan data) as [| v t]; [contradiction |].
  do 2 eexists. split; [reflexivity |]. split; [reflexivity |].
  destruct (fold_left_Rmax_spec t v) as [_ Hmax].
  destruct (fold_left_Rmin_spec t v) as [_ Hmin].
  eapply Rle_trans; [apply Hmin | apply Hmax]; left; reflexivity.
Qed.

Lemma plot_simulation_results_some (strengths : field)
    (x_min x_max y_min y_max step_val : R) :
  drop_nan (concat strengths) <> [] ->
  plot_simulation_results strengths x_min x_max y_min y_max step_val =
  Some {| norm := norm_range (np_nanmin (concat strengths))
                    (np_nanmax (concat strengths));
          extent := plot_extent x_min x_max y_min y_max step_val;
          contours :=
            valid_contour_levels strengths (np_nanmin (concat strengths))
              (np_nanmax (concat strengths))
              (norm_range (np_nanmin (concat strengths))
                 (np_nanmax (concat strengths))) |}.
Proof.
  intros Hvalid. unfold plot_simulation_results.
  assert (Hnan : forallb isnan (concat strengths) = false).
  { apply not_true_is_false. intros H. apply Hvalid.
    now apply forallb_isnan_drop. }
  assert (E0 : (size strengths =? 0)%nat = false).
  { apply Nat.eqb_neq. rewrite size_concat.
    destruct (concat strengths); [contradiction | cbn; lia]. }
  rewrite E0, Hnan. reflexivity.
Qed.

(** X23: what the coverage plot is drawn with is never degenerate.  For a
    field with a valid value the colour range and the extent are non-empty
    intervals; the extent starts at the lower bounds, ends at the upper
    bounds when the ranges are strictly ordered, and one step beyond when a
    range is a single point.  A field without a valid value is not
    drawn. *)
Theorem coverage_plot_ranges (strengths : field)
    (x_min x_max y_min y_max step_val : R) :
  (drop_nan (concat strengths) = [] ->
   plot_simulation_results strengths x_min x_max y_min y_max step_val = None) /\
  (drop_nan (concat strengths) <> [] ->
   exists (plot : coverage_plot) (right top : R),
     plot_simulation_results strengths x_min x_max y_min y_max step_val
       = Some plot /\
     fst (norm plot) < snd (norm plot) /\
     extent plot = (x_min, right, y_min, top) /\
     x_min < right /\ y_min < top /\
     (x_min < x_max -> right = x_max) /\
     (y_min < y_max -> top = y_max) /\
     (0 < step_val -> x_min = x_max -> right = x_max + step_val) /\
     (0 < step_val -> y_min = y_max -> top = y_max + step_val)).
Proof.
  split.
  - intros Hnone. unfold plot_simulation_results.
    apply forallb_isnan_drop in Hnone. rewrite Hnone.
    destruct (size strengths =? 0)%nat; reflexivity.
  - intros Hvalid.
    rewrite (plot_simulation_results_some strengths _ _ _ _ _ Hvalid).
    destruct (nan_extrema_some (concat strengths) Hvalid)
      as (s_min & s_max & -> & -> & Hle).
    eexists. do 2 eexists.
    split; [reflexivity |]. cbn [norm extent].
    split.
    { unfold norm_range, fixed_vmin, fixed_vmax.
      destruct (Req_dec_T s_min s_max); cbn [fst snd]; lra. }
    unfold plot_extent.
    split; [reflexivity |].
    destruct (Req_dec_T x_min x_max) as [Ex | Ex];
      destruct (Req_dec_T y_min y_max) as [Ey | Ey];
      destruct (Rgt_dec step_val 0) as [Hs | Hs];
      repeat match goal with
             | |- context [Rge_dec ?a ?b] => destruct (Rge_dec a b)
             end;
      repeat split; intros; lra.
Qed.

Lemma coverage_plot_ranges_witness :
  exists (plot : coverage_plot) (right top : R),
    plot_simulation_results [[Some (-90)]] 5 5 0 10 1 = Some plot /\
    fst (norm plot) < snd (norm plot) /\
    extent plot = (5, right, 0, top) /\
    5 < right /\ 0 < top /\ right = 5 + 1 /\ top = 10.
Proof.
  destruct (coverage_plot_ranges [[Some (-90)]] 5 5 0 10 1) as [_ H].
  destruct H as (plot & right & top & E & Hn & He & Hr & Ht & _ & Hty & Hrs & _).
  - cbn. discriminate.
  - exists plot, right, top.
    do 5 (split; [assumption |]).
    split; [apply Hrs; lra | apply Hty; lra].
Defined.

Lemma contour_levels_in_fixed_range (lvl : R) :
  In lvl contour_levels ->
  Rltb fixed_vmin lvl && Rltb lvl fixed_vmax = true.
Proof.
  unfold contour_levels, fixed_vmin, fixed_vmax, Rltb.
  intros [<- | [<- | [<- | [<- | [<- | []]]]]]; Rdecide; reflexivity.
Qed.

(** X24: the contour levels asked for.  Each is one of the five fixed
    levels and lies strictly between the minimum and the maximum of the
    field; a constant field, or one with a single row or column, gets none;
    otherwise the test against the colour range never removes a level. *)
Theorem contour_levels_spec (strengths : field)
    (x_min x_max y_min y_max step_val : R) :
  drop_nan (concat strengths) <> [] ->
  exists (plot : coverage_plot) (s_min s_max : R),
    plot_simulation_results strengths x_min x_max y_min y_max step_val
      = Some plot /\
    np_nanmin (concat strengths) = Some s_min /\
    np_nanmax (concat strengths) = Some s_max /\
    Forall (fun lvl => In lvl contour_levels /\ s_min < lvl < s_max)
           (contours plot) /\
    (s_min = s_max \/ (fst (shape strengths) <= 1)%nat
     \/ (snd (shape strengths) <= 1)%nat ->
     contours plot = []) /\
    (s_min <> s_max -> (1 < fst (shape strengths))%nat ->
     (1 < snd (shape strengths))%nat ->
     contours plot =
     filter (fun lvl => Rltb s_min lvl && Rltb lvl s_max) contour_levels).
Proof.
  intros Hvalid.
  rewrite (plot_simulation_results_some strengths _ _ _ _ _ Hvalid).
  destruct (nan_extrema_some (concat strengths) Hvalid)
    as (s_min & s_max & Emin & Emax & Hle).
  rewrite Emin, Emax.
  exists {| norm := norm_range (Some s_min) (Some s_max);
            extent := plot_extent x_min x_max y_min y_max step_val;
            contours := valid_contour_levels strengths (Some s_min)
                          (Some s_max)
                          (norm_range (Some s_min) (Some s_max)) |},
    s_min, s_max.
  split; [reflexivity |]. split; [reflexivity |]. split; [reflexivity |].
  cbn [contours]. unfold valid_contour_levels, norm_range.
  destruct (Req_dec_T s_min s_max) as [Heq | Hneq]; cbn [andb].
  - split; [constructor |]. split; [reflexivity | intros; contradiction].
  - destruct (1 <? fst (shape strengths))%nat eqn:Erows; cbn [andb].
    + destruct (1 <? snd (shape strengths))%nat eqn:Ecols.
      * apply Nat.ltb_lt in Erows, Ecols.
        assert (Hfilter :
                  filter (fun lvl =>
                            Rltb fixed_vmin lvl && Rltb lvl fixed_vmax
                            && (Rltb s_min lvl && Rltb lvl s_max))
                         contour_levels
                  = filter (fun lvl => Rltb s_min lvl && Rltb lvl s_max)
                           contour_levels).
        { apply filter_ext_in. intros lvl Hin.
          rewrite (contour_levels_in_fixed_range lvl Hin). reflexivity. }
        rewrite Hfilter.
        split; [| split; [intros [H | [H | H]]; [contradiction | lia | lia]
                         | reflexivity]].
        rewrite Forall_forall. intros lvl Hin.
        apply filter_In in Hin as [Hin Hb].
        apply andb_true_iff in Hb as [Hlo Hhi]. unfold Rltb in Hlo, Hhi.
        destruct (Rlt_dec s_min lvl); [| discriminate].
        destruct (Rlt_dec lvl s_max); [| discriminate].
        auto.
      * apply Nat.ltb_ge in Ecols.
        split; [constructor |]. split; [reflexivity | intros; lia].
    + apply Nat.ltb_ge in Erows.
      split; [constructor |]. split; [reflexivity | intros; lia].
Qed.

Lemma contour_levels_spec_witness :
  exists (plot : coverage_plot) (s_min s_max : R),
    plot_simulation_results [[Some (-70); Some (-100)]; [Some (-90); None]]
      0 10 0 10 10 = Some plot /\
    np_nanmin [Some (-70); Some (-100); Some (-90); None] = Some s_min /\
    np_nanmax [Some (-70); Some (-100); Some (-90); None] = Some s_max /\
    Forall (fun lvl => In lvl contour_levels /\ s_min < lvl < s_max)
           (contours plot).
Proof.
  destruct (contour_levels_spec
              [[Some (-70); Some (-100)]; [Some (-90); None]] 0 10 0 10 10)
    as (plot & s_min & s_max & E & Emin & Emax & Hall & _).
  - cbn. discriminate.
  - exists plot, s_min, s_max. auto.
Defined.
